(** * node-sass-middleware: the recompilation decision of [middleware.js]

    A shallow embedding of the Connect middleware of [src/middleware.js]:
    the module-level table [imports] (the dependency ledger), the request
    handler [sass] with its local callbacks [error], [done] and [compile],
    and the helper [checkImports].

    Node runs one callback at a time, each to completion.  The handler is
    embedded twice.  First as a request alone: a deterministic transformer
    of the shared store (the [imports] table and the file system) that
    also yields the sequence of observable effects it performed, in the
    order in which they happen when nothing else runs in between.  Then
    callback by callback: every [fs.stat], [fs.readFile], [render],
    [mkdirp] and [fs.writeFile] ends the running callback and leaves its
    own, so that the callbacks of requests that overlap, and changes of
    the disk, interleave in any order.  The first is the second run
    without interruption. *)

From Stdlib Require Import ZArith NArith String Ascii List Lia.
From stdpp Require Import base option strings gmap list pretty.

Local Open Scope Z_scope.

(** ** Strings as JavaScript uses them here *)

Definition LF : string := String "010"%char EmptyString.
Definition ESC : string := String "027"%char EmptyString.
Definition BEL : string := String "007"%char EmptyString.
Definition DQUOTE : string := String "034"%char EmptyString.

(** [s.substring(n)] *)
Fixpoint string_drop (n : nat) (s : string) : string :=
  match n, s with
  | O, _ => s
  | S n', String _ s' => string_drop n' s'
  | S _, EmptyString => EmptyString
  end.

(** [s.substring(0, n)] *)
Fixpoint string_take (n : nat) (s : string) : string :=
  match n, s with
  | O, _ => EmptyString
  | S n', String c s' => String c (string_take n' s')
  | S _, EmptyString => EmptyString
  end.

(** [0 === s.indexOf(p)] *)
Definition starts_with (p s : string) : bool := String.prefix p s.

(** [/\.css$/.test(s)], for the literal suffix [suf] *)
Definition ends_with (suf s : string) : bool :=
  String.prefix (String.rev suf) (String.rev s).

(** [s.indexOf(pat)], [None] for -1 *)
Fixpoint indexOf (pat s : string) : option nat :=
  if String.prefix pat s then Some O
  else match s with
       | EmptyString => None
       | String _ s' => S <$> indexOf pat s'
       end.

(** [s.replace(pat, rep)] with a string pattern: the first occurrence only *)
Definition replace_first (pat rep s : string) : string :=
  match indexOf pat s with
  | None => s
  | Some i =>
      string_take i s +:+ rep +:+ string_drop (i + String.length pat) s
  end.

(** [s.replace(/\n/g, "\\A ")] *)
Fixpoint escape_newlines (s : string) : string :=
  match s with
  | EmptyString => EmptyString
  | String c s' =>
      if Ascii.eqb c "010"%char
      then String "\"%char (String "A"%char (String " "%char (escape_newlines s')))
      else String c (escape_newlines s')
  end.

(** [s] occurs in [t] *)
Definition substring_of (s t : string) : Prop :=
  ∃ pre post, t = pre +:+ s +:+ post.

(** JavaScript truthiness of an optional string: [undefined] and the empty
    string are falsy. *)
Definition truthy (o : option string) : bool :=
  match o with
  | Some s => negb (String.eqb s EmptyString)
  | None => false
  end.

(** [a || b] on optional strings *)
Definition or_else (a b : option string) : option string :=
  if truthy a then a else b.

(** ** Data of the collaborators *)

(** A Node file-system error; the middleware only reads [err.code]. *)
Record fs_error := FsError { code : string }.

(** [fs.Stats]; [mtime] is the Date's time value in milliseconds, which is
    what [>] compares. *)
Record stats := Stats { mtime : Z }.

(** The error object node-sass passes to the render callback. *)
Record sass_error := SassError {
  message : string;
  line : N;
  column : N
}.

(** The result object of a successful render: [result.css] and
    [result.stats.includedFiles]. *)
Record sass_result := SassResult {
  css : string;
  includedFiles : list string
}.

(** The object handed to [style.render]. *)
Record render_options := RenderOptions {
  data : string;
  importer : option string;
  includePaths : list string;
  imagePath : option string;
  outputStyle : option string
}.

(** The middleware's [options] object.  [o_error] says whether an
    [options.error] callback is installed; [o_importer] is passed through
    unread. *)
Record options := Options {
  o_force : bool;
  o_debug : bool;
  o_response : bool;
  o_src : option string;
  o_dest : option string;
  o_root : option string;
  o_prefix : option string;
  o_importer : option string;
  o_include_paths : option (list string);
  o_includePaths : option (list string);
  o_image_path : option string;
  o_imagePath : option string;
  o_output_style : option string;
  o_outputStyle : option string;
  o_error : bool
}.

(** [{}] *)
Definition empty_options : options :=
  Options false false false None None None None None None None None None None
          None false.

(** What [module.exports] can be called with. *)
Inductive options_arg :=
| Undefined
| SrcString (s : string)
| Object (o : options).

Record request := Request { method : string; url : string }.

(** The argument of a call of [next]. *)
Inductive next_arg :=
| NextVoid
| NextNull
| NextErr (err : fs_error).

(** ** Observable effects

    Calls of the collaborators, in the order in which they are made. *)

Inductive event :=
| ConsoleError (text : string)
| FsStat (path : string)
| FsReadFile (path : string)
| Mkdirp (dir : string) (mode : Z)
| FsWriteFile (path : string) (text : string)
| Render (source : string) (opts : render_options)
         (res : sass_error + sass_result)
| ErrorCallback (err : sass_error)
| WriteHead (status : Z) (headers : list (string * string))
| ResEnd (body : string)
| Next (arg : next_arg).

(** ** The file system

    The middleware uses four operations of Node's [fs] and of [mkdirp].
    Reads leave the file system as it is; writes return the new file
    system and the error passed to the callback, if any. *)

Class FileSystem (W : Type) := {
  fs_stat : W → string → fs_error + stats;
  fs_readFile : W → string → fs_error + string;
  fs_writeFile : W → string → string → W * option fs_error;
  fs_mkdirp : W → string → Z → W * option fs_error
}.

(** ** An in-memory disk and a toy compiler

    A concrete instance of the interface, on which the handler can be run:
    a path holds a file with its modification time and text, or is locked
    and fails every access with an errno. *)

Module Mem.

Inductive node :=
| File (modified : Z) (text : string)
| Locked (errno : string).

(** Files written get the time [clock]. *)
Record disk := MkDisk {
  files : gmap string node;
  clock : Z
}.

Definition access (d : disk) (path : string) : fs_error + (Z * string) :=
  match files d !! path with
  | Some (File modified text) => inr (modified, text)
  | Some (Locked errno) => inl (FsError errno)
  | None => inl (FsError "ENOENT")
  end.

Definition write (d : disk) (path text : string) : disk * option fs_error :=
  match files d !! path with
  | Some (Locked errno) => (d, Some (FsError errno))
  | _ => (MkDisk (<[path := File (clock d) text]> (files d)) (clock d), None)
  end.

Definition make_dirs (d : disk) (dir : string) (mode : Z)
    : disk * option fs_error :=
  match files d !! dir with
  | Some (Locked errno) => (d, Some (FsError errno))
  | _ => (d, None)
  end.

#[export] Instance disk_fs : FileSystem disk := {|
  fs_stat d path :=
    match access d path with
    | inl err => inl err
    | inr (modified, _) => inr (Stats modified)
    end;
  fs_readFile d path :=
    match access d path with
    | inl err => inl err
    | inr (_, text) => inr text
    end;
  fs_writeFile := write;
  fs_mkdirp := make_dirs
|}.

(** The toy compiler: a source is a list of words; a word [@p] includes
    the file [p], the word [!] is a syntax error, and the output is the
    source text. *)
Definition import_of (word : string) : option string :=
  match word with
  | String "@" p => Some p
  | _ => None
  end.

Definition toy_render (d : disk) (ro : render_options)
    : sass_error + sass_result :=
  let ws := String.words (data ro) in
  if bool_decide ("!" ∈ ws)
  then inl (SassError "unexpected !" 3 7)
  else inr (SassResult (data ro) (omap import_of ws)).

(** Paths: requests are absolute, so joining is concatenation here. *)
Definition toy_pathname (u : string) : string := u.

Definition toy_join (parts : list string) : string :=
  fold_right String.append EmptyString parts.

Fixpoint after_slash (s : string) : string :=
  match s with
  | EmptyString => EmptyString
  | String c s' => if Ascii.eqb c "/" then s' else after_slash s'
  end.

Definition toy_dirname (p : string) : string :=
  String.rev (after_slash (String.rev p)).

(** A site: [a.scss] includes [_b.scss]; [a.css] was written at time 20. *)
Definition a_scss : string := "/srv/sass/a.scss".
Definition b_scss : string := "/srv/sass/_b.scss".
Definition a_css : string := "/srv/css/a.css".

Definition site : disk :=
  MkDisk
    (<[a_scss := File 10 "@/srv/sass/_b.scss body"]>
       (<[b_scss := File 5 "b"]>
          (<[a_css := File 20 "old"]> ∅)))
    30.

(** The same site after a bad edit of [a.scss] at time 40. *)
Definition site_broken : disk :=
  MkDisk
    (<[a_scss := File 40 "@/srv/sass/_b.scss ! body"]>
       (<[b_scss := File 5 "b"]>
          (<[a_css := File 30 "@/srv/sass/_b.scss body"]> ∅)))
    50.

(** The site with an output directory that cannot be written. *)
Definition site_readonly : disk :=
  MkDisk
    (<[a_scss := File 10 "@/srv/sass/_b.scss body"]>
       (<[b_scss := File 5 "b"]>
          (<[ "/srv/css" := Locked "EACCES"]> ∅)))
    30.

(** The site when source and output were written in the same tick. *)
Definition site_tie : disk :=
  MkDisk
    (<[a_scss := File 20 "@/srv/sass/_b.scss body"]>
       (<[b_scss := File 5 "b"]>
          (<[a_css := File 20 "old"]> ∅)))
    30.

(** The site after a file that is no longer included was touched. *)
Definition old_scss : string := "/srv/sass/_old.scss".

Definition site_touched : disk :=
  MkDisk (<[old_scss := File 99 "old"]> (files site)) (clock site).

(** What the toy compiler is given for [a.scss] and what it returns. *)
Definition a_text : string := "@/srv/sass/_b.scss body".
Definition a_text_broken : string := "@/srv/sass/_b.scss ! body".

Definition a_render_options (text : string) : render_options :=
  RenderOptions text None ["/srv/sass"] None None.

Definition a_result : sass_result := SassResult a_text [b_scss].
Definition a_error : sass_error := SassError "unexpected !" 3 7.

(** [{ src: '/srv/sass', dest: '/srv/css' }] *)
Definition site_options : options :=
  Options false false false (Some "/srv/sass") (Some "/srv/css") None None
    None None None None None None None false.

Definition site_options_debug : options :=
  Options false true false (Some "/srv/sass") (Some "/srv/css") None None
    None None None None None None None false.

Definition get_a_css : request := Request "GET" "/a.css".

(** The ledger after [a.scss] has been compiled on [site]. *)
Definition a_known : gmap string (list string) := {[a_scss := [b_scss]]}.

(** The site without [a.scss], and with an output that cannot be read. *)
Definition site_without_source : disk :=
  MkDisk (delete a_scss (files site)) (clock site).

Definition site_locked_output : disk :=
  MkDisk (<[a_css := Locked "EACCES"]> (files site)) (clock site).

(** [{ src: '/srv/sass', dest: '/srv/css', response: true }] and
    [{ src: '/srv/sass', dest: '/srv/css', prefix: '/static' }] *)
Definition site_options_response : options :=
  Options false false true (Some "/srv/sass") (Some "/srv/css") None None
    None None None None None None None false.

Definition site_options_prefix : options :=
  Options false false false (Some "/srv/sass") (Some "/srv/css") None
    (Some "/static") None None None None None None None false.

End Mem.

Section middleware.

Context {W : Type} `{FileSystem W}.

(** The [render] method of the object [options.compile()] returns
    (node-sass by default).  It reads imported files itself, so its result
    may depend on the file system. *)
Variable render : W → render_options → sass_error + sass_result.

(** [url.parse(u).pathname], [path.join] and [path.dirname]. *)
Variable pathname : string → string.
Variable join : list string → string.
Variable dirname : string → string.

(** The store shared by all requests: [var imports = {}] and the disk.
    The keys of [imports] are the source paths built by the handler; they
    contain [.scss], so no property inherited from [Object.prototype] is
    ever looked up and a finite map is what the object amounts to.  An
    entry is an array, which is truthy even when empty. *)
Record store := Store {
  imports : gmap string (list string);
  world : W
}.

(** A piece of handler code: it transforms the store and emits events. *)
Definition proc : Type := store → store * list event.

Definition skip : proc := λ s, (s, []).

Definition emit (e : event) : proc := λ s, (s, [e]).

Definition seq (p q : proc) : proc :=
  λ s, let r1 := p s in
       let r2 := q r1.1 in
       (r2.1, r1.2 ++ r2.2).

Notation "p ;; q" := (seq p q) (at level 100, q at level 200).

Definition when (b : bool) (p : proc) : proc := if b then p else skip.

(** [fs.stat(path, cb)] *)
Definition stat (path : string) (cb : fs_error + stats → proc) : proc :=
  λ s, (emit (FsStat path) ;; cb (fs_stat (world s) path)) s.

(** [fs.readFile(path, 'utf8', cb)] *)
Definition readFile (path : string) (cb : fs_error + string → proc) : proc :=
  λ s, (emit (FsReadFile path) ;; cb (fs_readFile (world s) path)) s.

(** Completion of [mkdirp(dir, mode, cb)] *)
Definition mkdirp_done (dir : string) (mode : Z)
    (cb : option fs_error → proc) : proc :=
  λ s, let r := fs_mkdirp (world s) dir mode in
       cb r.2 (Store (imports s) r.1).

(** [fs.writeFile(path, text, 'utf8', cb)] *)
Definition writeFile (path text : string)
    (cb : option fs_error → proc) : proc :=
  λ s, let r := fs_writeFile (world s) path text in
       (emit (FsWriteFile path text) ;; cb r.2) (Store (imports s) r.1).

(** [imports[path] = files] and [delete imports[path]] *)
Definition imports_set (path : string) (files : list string) : proc :=
  λ s, (Store (<[path := files]> (imports s)) (world s), []).

Definition imports_delete (path : string) : proc :=
  λ s, (Store (delete path (imports s)) (world s), []).

(** [log(key, val)]: [console.error] with the format
    ['  \033[90m%s :\033[0m \033[36m%s\033[0m']. *)
Definition log_line (key val : string) : string :=
  "  " +:+ ESC +:+ "[90m" +:+ key +:+ " :" +:+ ESC +:+ "[0m "
  +:+ ESC +:+ "[36m" +:+ val +:+ ESC +:+ "[0m".

Definition log (key val : string) : proc :=
  emit (ConsoleError (log_line key val)).

(** [logError(message)] *)
Definition logError (msg : string) : proc :=
  log "error" (BEL +:+ ESC +:+ "[31m" +:+ msg +:+ ESC +:+ "[91m").

Definition next (arg : next_arg) : proc := emit (Next arg).

(** The head every response of the middleware is written with. *)
Definition css_headers : list (string * string) :=
  [("Content-Type", "text/css"); ("Cache-Control", "max-age=0")]%string.

(** [checkImports]: [nodes.forEach] with the callback of each [fs.stat].
    The counter [pending] is decremented by every callback and [fn] runs
    when it reaches zero.  Here, for a request alone, the stats complete
    in the order of the array and the file system does not change between
    them; the callbacks emit nothing themselves, so that issuing all the
    stats first, as Node does, gives the same sequence of events.  The
    stats completing in any order, with anything in between, are
    [stat_callbacks] below. *)
Fixpoint stat_nodes (nodes : list string) (time : Z) (pending : Z)
    (changed : list string) (fn : option (list string) → proc) : proc :=
  match nodes with
  | [] => skip
  | imported :: rest =>
      stat imported (λ r,
        let changed :=
          match r with
          | inl _ => changed ++ [imported]
          | inr st =>
              if mtime st >? time then changed ++ [imported] else changed
          end in
        let pending := pending - 1 in
        (if pending =? 0 then fn (Some changed) else skip) ;;
        stat_nodes rest time pending changed fn)
  end.

Definition checkImports (path : string) (time : Z)
    (fn : option (list string) → proc) : proc :=
  λ s,
    match imports s !! path with
    | None => fn None s
    | Some nodes =>
        if (length nodes =? 0)%nat then fn None s
        else stat_nodes nodes time (Z.of_nat (length nodes)) [] fn s
    end.

(** *** The callbacks of one request *)

Section request.

Variable opts : options.
Variables force debug : bool.
Variables sassPath cssPath sassDir : string.

(** [var error = function(err) {...}]: ENOENT falls through as a 404. *)
Definition error (err : fs_error) : proc :=
  next (if String.eqb "ENOENT" (code err) then NextNull else NextErr err).

(** The diagnostic body built from a compile error.  [err.line] and
    [err.column] are the natural numbers node-sass reports; concatenation
    prints them in decimal. *)
Definition error_message (err : sass_error) : string :=
  let fileLineColumn :=
    sassPath +:+ ":" +:+ pretty (line err) +:+ ":" +:+ pretty (column err) in
  message err +:+ " in " +:+ fileLineColumn.

Definition error_data (err : sass_error) : string :=
  let msg := error_message err in
  "/*" +:+ LF +:+ msg +:+ LF +:+ "*/" +:+ LF
  +:+ "body:before { white-space: pre; font-family: monospace; content: "
  +:+ DQUOTE +:+ escape_newlines msg +:+ DQUOTE.

(** The callbacks of [mkdirp] and [fs.writeFile] in [done]. *)
Definition persist (text : string) : proc :=
  mkdirp_done (dirname cssPath) 448 (λ err,
    match err with
    | Some e => error e
    | None =>
        writeFile cssPath text (λ err,
          match err with
          | Some e => error e
          | None => skip
          end)
    end).

(** [var done = function(err, result) {...}].  [mkdirp] is called before
    the response is written; its callback runs once the synchronous part
    of [done] has returned, that is after [res.end]. *)
Definition done (r : sass_error + sass_result) : proc :=
  match r with
  | inl err =>
      let text := error_data err in
      when debug (logError text) ;;
      when (o_error opts) (emit (ErrorCallback err)) ;;
      emit (WriteHead 200 css_headers) ;;
      emit (ResEnd text)
  | inr result =>
      let text := css result in
      when debug
        (log "render" (if o_response opts then "<response>" else sassPath)) ;;
      imports_set sassPath (includedFiles result) ;;
      when (negb (o_response opts)) (emit (Mkdirp (dirname cssPath) 448)) ;;
      emit (WriteHead 200 css_headers) ;;
      emit (ResEnd text) ;;
      when (negb (o_response opts)) (persist text)
  end.

(** The options object given to [style.render]. *)
Definition render_opts (str : string) : render_options :=
  RenderOptions str (o_importer opts)
    (sassDir ::
       match o_include_paths opts with
       | Some l => l
       | None => default [] (o_includePaths opts)
       end)
    (or_else (o_image_path opts) (o_imagePath opts))
    (or_else (o_output_style opts) (o_outputStyle opts)).

(** [style.render(opts, done)] *)
Definition style_render (ro : render_options) : proc :=
  λ s, let r := render (world s) ro in
       (emit (Render sassPath ro r) ;; done r) s.

(** [var compile = function() {...}] *)
Definition compile : proc :=
  when debug (log "read" cssPath) ;;
  readFile sassPath (λ r,
    match r with
    | inl err => error err
    | inr str =>
        imports_delete sassPath ;;
        style_render (render_opts str)
    end).

(** The callback given to [checkImports]. *)
Definition imports_checked (changed : option (list string)) : proc :=
  match changed with
  | Some (p :: l) =>
      when debug
        (fold_right (λ path k, log "modified import %s" path ;; k) skip
           (p :: l)) ;;
      compile
  | _ => next NextVoid
  end.

(** Lines 156 to 193 of the handler: the decision between [compile()]
    and [next()], which the specification calls [resolve]. *)
Definition resolve : proc :=
  if force then compile
  else λ s,
    match imports s !! sassPath with
    | None => compile s
    | Some _ =>
        stat sassPath (λ r,
          match r with
          | inl err => error err
          | inr sassStats =>
              stat cssPath (λ r,
                match r with
                | inl err =>
                    if String.eqb "ENOENT" (code err)
                    then when debug (log "not found" cssPath) ;; compile
                    else next (NextErr err)
                | inr cssStats =>
                    if mtime sassStats >? mtime cssStats
                    then when debug (log "modified" cssPath) ;; compile
                    else checkImports sassPath (mtime cssStats)
                           imports_checked
                end)
          end) s
    end.

End request.

(** [function sass(req, res, next)] *)
Definition sass (opts : options) (force debug : bool) (src dest : string)
    (root : option string) (req : request) : proc :=
  if negb (String.eqb "GET" (method req))
     && negb (String.eqb "HEAD" (method req))
  then next NextVoid
  else
    let path := pathname (url req) in
    let path :=
      match o_prefix opts with
      | Some prefix =>
          if truthy (Some prefix) && starts_with prefix path
          then string_drop (String.length prefix) path
          else path
      | None => path
      end in
    if ends_with ".css" path then
      let cssPath :=
        match root with
        | Some root =>
            join [root; dest; replace_first dest EmptyString path]
        | None => join [dest; path]
        end in
      let sassPath :=
        match root with
        | Some root =>
            join [root; src;
                  replace_first ".css" ".scss"
                    (replace_first dest EmptyString path)]
        | None => join [src; replace_first ".css" ".scss" path]
        end in
      let sassDir := dirname sassPath in
      when debug
        (log "source" sassPath ;;
         log "dest" (if o_response opts then "<response>" else cssPath)) ;;
      resolve opts force debug sassPath cssPath sassDir
    else next NextVoid.

(** [module.exports = function(options) {...}]; [None] when it throws
    ['sass.middleware() requires "src" directory']. *)
Definition middleware (arg : options_arg) : option (request → proc) :=
  let opts :=
    match arg with
    | Undefined => empty_options
    | SrcString s =>
        if truthy (Some s)
        then Options false false false (Some s) None None None None None
               None None None None None false
        else empty_options
    | Object o => o
    end in
  let force := o_force opts || o_response opts in
  let debug := o_debug opts in
  match o_src opts with
  | Some src =>
      if truthy (Some src) then
        let dest := if truthy (o_dest opts) then default src (o_dest opts)
                    else src in
        let root := if truthy (o_root opts) then o_root opts else None in
        Some (sass opts force debug src dest root)
      else None
  | None => None
  end.



(** ** What a history says about the ledger *)

(** What the compiler invocations recorded in a history say about
    [source], starting from [acc]: the included files returned by the last
    one that succeeded. *)
Definition success_step (source : string) (acc : option (list string))
    (e : event) : option (list string) :=
  match e with
  | Render src _ (inr r) =>
      if String.eqb src source then Some (includedFiles r) else acc
  | _ => acc
  end.

Definition last_success (source : string) (tr : list event)
    : option (list string) :=
  fold_left (success_step source) tr None.

Definition compiled_once (source : string) (tr : list event) : Prop :=
  ∃ ro r, Render source ro (inr r) ∈ tr.

(** ** Vocabulary of the statements *)

(** [p] run after the events [evs] have happened. *)
Definition after (evs : list event) (p : proc) : proc :=
  λ s, let r := p s in (r.1, evs ++ r.2).

(** Events that neither touch the ledger or the disk nor answer the
    request. *)
Definition is_write (e : event) : bool :=
  match e with
  | Mkdirp _ _ | FsWriteFile _ _ => true
  | _ => false
  end.

Definition is_stat (e : event) : bool :=
  match e with
  | FsStat _ => true
  | _ => false
  end.

Definition is_render (e : event) : bool :=
  match e with
  | Render _ _ _ => true
  | _ => false
  end.

Definition is_log (e : event) : bool :=
  match e with
  | ConsoleError _ => true
  | _ => false
  end.

Definition is_response (e : event) : bool :=
  match e with
  | WriteHead _ _ | ResEnd _ => true
  | _ => false
  end.

Definition is_read (e : event) : bool :=
  match e with
  | FsReadFile _ => true
  | _ => false
  end.

Definition is_next (e : event) : bool :=
  match e with
  | Next _ => true
  | _ => false
  end.

Definition none_of (f : event → bool) (evs : list event) : Prop :=
  forallb (λ e, negb (f e)) evs = true.

(** Every head written is [200] with the two CSS headers. *)
Definition head_ok (e : event) : bool :=
  match e with
  | WriteHead status headers =>
      (status =? 200) && bool_decide (headers = css_headers)
  | _ => true
  end.

(** What [error(err)] does: ENOENT falls through, anything else is
    passed on. *)
Definition error_event (err : fs_error) : event :=
  Next (if String.eqb "ENOENT" (code err) then NextNull else NextErr err).

(** The line [if (debug) { log(key, val); }] writes. *)
Definition debug_line (debug : bool) (key val : string) : list event :=
  if debug then [ConsoleError (log_line key val)] else [].

(** The debug lines of the callback of [checkImports]. *)
Definition import_logs (debug : bool) (changed : list string) : list event :=
  if debug
  then map (λ path,
         ConsoleError (log_line "modified import %s" path)) changed
  else [].

(** The two stats [resolve] makes before it looks at the imports. *)
Definition two_stats (sassPath cssPath : string) : list event :=
  [FsStat sassPath; FsStat cssPath].

(** What the callbacks of [mkdirp] and [fs.writeFile] do on the disk [w]
    and what they emit. *)
Definition persist_world (cssPath : string) (w : W) (text : string) : W :=
  let m := fs_mkdirp w (dirname cssPath) 448 in
  match m.2 with
  | Some _ => m.1
  | None => (fs_writeFile m.1 cssPath text).1
  end.

Definition persist_events (cssPath : string) (w : W) (text : string)
    : list event :=
  let m := fs_mkdirp w (dirname cssPath) 448 in
  match m.2 with
  | Some e => [error_event e]
  | None =>
      FsWriteFile cssPath text ::
      match (fs_writeFile m.1 cssPath text).2 with
      | Some e => [error_event e]
      | None => []
      end
  end.

(** The test [err || stat.mtime > time] of [checkImports], on the disk
    [w]. *)
Definition import_changed (w : W) (time : Z) (imported : string) : bool :=
  match fs_stat w imported with
  | inl _ => true
  | inr st => mtime st >? time
  end.

(** A recorded import counts as changed against the output's [time] when
    its stat fails or its modification time is strictly newer; it is
    unchanged when the stat succeeds with a time that is not newer. *)
Definition import_stale (w : W) (time : Z) (p : string) : Prop :=
  (∃ err, fs_stat w p = inl err)
  ∨ (∃ st, fs_stat w p = inr st ∧ mtime st > time).

Definition import_fresh (w : W) (time : Z) (p : string) : Prop :=
  ∃ st, fs_stat w p = inr st ∧ mtime st ≤ time.

(** [compile()] was entered: the source file was read. *)
Definition recompiles (sassPath : string) (evs : list event) : Prop :=
  FsReadFile sassPath ∈ evs.

(** The condition under which lines 156 to 193 reach [compile()]. *)
Definition needs_compile (force : bool) (sassPath cssPath : string)
    (s : store) : bool :=
  force ||
  match imports s !! sassPath with
  | None => true
  | Some nodes =>
      match fs_stat (world s) sassPath with
      | inl _ => false
      | inr sassStats =>
          match fs_stat (world s) cssPath with
          | inl err => String.eqb "ENOENT" (code err)
          | inr cssStats =>
              (mtime sassStats >? mtime cssStats)
              || match List.filter
                         (import_changed (world s) (mtime cssStats)) nodes
                 with
                 | [] => false
                 | _ :: _ => true
                 end
          end
      end
  end.

(** Events that only look or log or hand the request on. *)
Definition is_silent (e : event) : bool :=
  match e with
  | ConsoleError _ | FsStat _ | Next _ => true
  | _ => false
  end.

Definition all_of (f : event → bool) (evs : list event) : Prop :=
  forallb f evs = true.

(** At most one response is written, and it is a head with status 200 and
    the CSS headers followed at once by the body. *)
Definition one_css_response_at_most (evs : list event) : Prop :=
  none_of is_response evs
  ∨ ∃ pre body post,
      evs = pre ++ [WriteHead 200 css_headers; ResEnd body] ++ post
      ∧ none_of is_response pre ∧ none_of is_response post.

(** Events that only look at the disk or log. *)
Definition is_look (e : event) : bool :=
  match e with
  | ConsoleError _ | FsStat _ => true
  | _ => false
  end.

(** What a run did of one kind, read off its events with [omap]. *)
Definition next_of (e : event) : option next_arg :=
  match e with
  | Next arg => Some arg
  | _ => None
  end.

Definition body_of (e : event) : option string :=
  match e with
  | ResEnd body => Some body
  | _ => None
  end.

Definition write_of (e : event) : option (string * string) :=
  match e with
  | FsWriteFile path text => Some (path, text)
  | _ => None
  end.

Definition mkdirp_of (e : event) : option (string * Z) :=
  match e with
  | Mkdirp dir mode => Some (dir, mode)
  | _ => None
  end.

Definition render_of (e : event)
    : option (string * render_options * (sass_error + sass_result)) :=
  match e with
  | Render source ro res => Some (source, ro, res)
  | _ => None
  end.

Definition callback_of (e : event) : option sass_error :=
  match e with
  | ErrorCallback err => Some err
  | _ => None
  end.

(** A run with its debug lines taken out. *)
Definition without_logs (evs : list event) : list event :=
  List.filter (λ e, negb (is_log e)) evs.

(** The options with [prefix] removed. *)
Definition without_prefix (o : options) : options :=
  Options (o_force o) (o_debug o) (o_response o) (o_src o) (o_dest o)
    (o_root o) None (o_importer o) (o_include_paths o) (o_includePaths o)
    (o_image_path o) (o_imagePath o) (o_output_style o) (o_outputStyle o)
    (o_error o).

(** The options object a string argument stands for: [{ src: s }]. *)
Definition src_only (s : string) : options :=
  Options false false false (Some s) None None None None None None None
    None None None false.

(** ** The handler, callback by callback

    Above, a request runs from its first line to its last call without
    anything happening in between.  In Node every [fs.stat],
    [fs.readFile], [render], [mkdirp] and [fs.writeFile] returns at once
    and its callback runs later, so that callbacks of other requests, and
    changes of the disk, come in between.  Here the same code is cut at
    these points: a callback runs to its end and may leave the callback
    of the operation it started, which reads the store as it is when it
    runs. *)

Inductive thread : Type :=
| Thread (resume : store → outcome)
with outcome : Type :=
| Finished (s : store) (evs : list event)
| Suspended (s : store) (evs : list event) (t : thread).

Definition callback : Type := store → outcome.

Definition resume (t : thread) : callback :=
  match t with
  | Thread k => k
  end.

Definition out_store (o : outcome) : store :=
  match o with
  | Finished s _ | Suspended s _ _ => s
  end.

Definition out_events (o : outcome) : list event :=
  match o with
  | Finished _ evs | Suspended _ evs _ => evs
  end.

Definition out_pending (o : outcome) : option thread :=
  match o with
  | Finished _ _ => None
  | Suspended _ _ t => Some t
  end.

(** Synchronous code that ends the callback. *)
Definition finish (p : proc) : callback :=
  λ s, Finished (p s).1 (p s).2.

Definition prepend (evs : list event) (o : outcome) : outcome :=
  match o with
  | Finished s e => Finished s (evs ++ e)
  | Suspended s e t => Suspended s (evs ++ e) t
  end.

(** Synchronous code followed by more of the same callback. *)
Definition and_then (p : proc) (k : callback) : callback :=
  λ s, prepend (p s).2 (k (p s).1).

(** An operation has been started; [k] is its callback. *)
Definition later (k : callback) : callback :=
  λ s, Suspended s [] (Thread k).

Definition stop : callback := λ s, Finished s [].

Section callbacks.

Variable opts : options.
Variables force debug : bool.
Variables sassPath cssPath sassDir : string.

(** The order in which the [fs.stat] callbacks of [checkImports] run: the
    recorded files, as they complete. *)
Variable completion : list string → list string.

(** The callbacks of [mkdirp] and [fs.writeFile] in [done]. *)
Definition persist_later (text : string) : callback :=
  later (λ s,
    let r := fs_mkdirp (world s) (dirname cssPath) 448 in
    match r.2 with
    | Some e => finish (error e) (Store (imports s) r.1)
    | None =>
        and_then (emit (FsWriteFile cssPath text))
          (later (λ s,
             let r := fs_writeFile (world s) cssPath text in
             match r.2 with
             | Some e => finish (error e) (Store (imports s) r.1)
             | None => stop (Store (imports s) r.1)
             end))
          (Store (imports s) r.1)
    end).

(** [done], the callback of [style.render]. *)
Definition done_later (r : sass_error + sass_result) : callback :=
  match r with
  | inl err => finish (done opts debug sassPath cssPath (inl err))
  | inr result =>
      and_then
        (when debug
           (log "render"
              (if o_response opts then "<response>" else sassPath)) ;;
         imports_set sassPath (includedFiles result) ;;
         when (negb (o_response opts))
           (emit (Mkdirp (dirname cssPath) 448)) ;;
         emit (WriteHead 200 css_headers) ;;
         emit (ResEnd (css result)))
        (if o_response opts then stop else persist_later (css result))
  end.

(** [compile]: the read is started; its callback deletes the entry and
    starts the compiler, whose callback is [done]. *)
Definition compile_later : callback :=
  and_then (when debug (log "read" cssPath) ;; emit (FsReadFile sassPath))
    (later (λ s,
       match fs_readFile (world s) sassPath with
       | inl err => finish (error err) s
       | inr str =>
           and_then (imports_delete sassPath)
             (later (λ s,
                let ro := render_opts opts sassDir str in
                let r := render (world s) ro in
                and_then (emit (Render sassPath ro r)) (done_later r) s))
             s
       end)).

(** The callbacks of the stats of [checkImports], in the order in which
    they run; each decrements [pending], and the one that brings it to
    zero calls [fn]. *)
Fixpoint stat_callbacks (completing : list string) (time : Z) (pending : Z)
    (changed : list string) (fn : option (list string) → callback)
    : callback :=
  match completing with
  | [] => stop
  | imported :: rest =>
      later (λ s,
        let changed :=
          match fs_stat (world s) imported with
          | inl _ => changed ++ [imported]
          | inr st =>
              if mtime st >? time then changed ++ [imported] else changed
          end in
        let pending := pending - 1 in
        if pending =? 0 then fn (Some changed) s
        else stat_callbacks rest time pending changed fn s)
  end.

(** [checkImports]: all the stats are started, in the order of the array;
    then their callbacks run. *)
Definition checkImports_later (path : string) (time : Z)
    (fn : option (list string) → callback) : callback :=
  λ s,
    match imports s !! path with
    | None => fn None s
    | Some nodes =>
        if (length nodes =? 0)%nat then fn None s
        else
          and_then (λ s, (s, map FsStat nodes))
            (stat_callbacks (completion nodes) time
               (Z.of_nat (length nodes)) [] fn) s
    end.

Definition imports_checked_later (changed : option (list string))
    : callback :=
  match changed with
  | Some (p :: l) =>
      and_then
        (when debug
           (fold_right (λ path k, log "modified import %s" path ;; k) skip
              (p :: l)))
        compile_later
  | _ => finish (next NextVoid)
  end.

(** Lines 156 to 193. *)
Definition resolve_later : callback :=
  λ s,
    if force then compile_later s
    else
      match imports s !! sassPath with
      | None => compile_later s
      | Some _ =>
          and_then (emit (FsStat sassPath))
            (later (λ s,
               match fs_stat (world s) sassPath with
               | inl err => finish (error err) s
               | inr sassStats =>
                   and_then (emit (FsStat cssPath))
                     (later (λ s,
                        match fs_stat (world s) cssPath with
                        | inl err =>
                            if String.eqb "ENOENT" (code err)
                            then and_then
                                   (when debug (log "not found" cssPath))
                                   compile_later s
                            else finish (next (NextErr err)) s
                        | inr cssStats =>
                            if mtime sassStats >? mtime cssStats
                            then and_then
                                   (when debug (log "modified" cssPath))
                                   compile_later s
                            else checkImports_later sassPath
                                   (mtime cssStats)
                                   imports_checked_later s
                        end))
                     s
               end))
            s
      end.

End callbacks.

(** [function sass(req, res, next)], callback by callback. *)
Definition sass_later (opts : options) (force debug : bool)
    (src dest : string) (root : option string)
    (completion : list string → list string) (req : request) : callback :=
  if negb (String.eqb "GET" (method req))
     && negb (String.eqb "HEAD" (method req))
  then finish (next NextVoid)
  else
    let path := pathname (url req) in
    let path :=
      match o_prefix opts with
      | Some prefix =>
          if truthy (Some prefix) && starts_with prefix path
          then string_drop (String.length prefix) path
          else path
      | None => path
      end in
    if ends_with ".css" path then
      let cssPath :=
        match root with
        | Some root =>
            join [root; dest; replace_first dest EmptyString path]
        | None => join [dest; path]
        end in
      let sassPath :=
        match root with
        | Some root =>
            join [root; src;
                  replace_first ".css" ".scss"
                    (replace_first dest EmptyString path)]
        | None => join [src; replace_first ".css" ".scss" path]
        end in
      let sassDir := dirname sassPath in
      and_then
        (when debug
           (log "source" sassPath ;;
            log "dest" (if o_response opts then "<response>" else cssPath)))
        (resolve_later opts force debug sassPath cssPath sassDir completion)
    else finish (next NextVoid).

(** [module.exports], for the handler cut into callbacks. *)
Definition middleware_later (arg : options_arg)
    : option ((list string → list string) → request → callback) :=
  let opts :=
    match arg with
    | Undefined => empty_options
    | SrcString s =>
        if truthy (Some s)
        then Options false false false (Some s) None None None None None
               None None None None None false
        else empty_options
    | Object o => o
    end in
  let force := o_force opts || o_response opts in
  let debug := o_debug opts in
  match o_src opts with
  | Some src =>
      if truthy (Some src) then
        let dest := if truthy (o_dest opts) then default src (o_dest opts)
                    else src in
        let root := if truthy (o_root opts) then o_root opts else None in
        Some (sass_later opts force debug src dest root)
      else None
  | None => None
  end.

(** A request alone: every callback runs as soon as it is left, and
    nothing else happens in between. *)
Fixpoint drain (t : thread) (s : store) : store * list event :=
  match t with
  | Thread k => settle (k s)
  end
with settle (o : outcome) : store * list event :=
  match o with
  | Finished s evs => (s, evs)
  | Suspended s evs t => ((drain t s).1, evs ++ (drain t s).2)
  end.

Definition alone (k : callback) : proc := λ s, settle (k s).

(** *** The process, with requests that overlap

    What happens in a process: a request arrives and its first callback
    runs; a callback that was left runs; the disk changes. *)

Inductive occurrence :=
| Arrives (arg : options_arg) (req : request)
          (completion : list string → list string)
| Completes (i : nat)
| DiskChanges (w : W).

Record process := Process {
  p_store : store;
  p_trace : list event;
  p_pending : list thread
}.

Definition absorb (tr : list event) (others : list thread) (o : outcome)
    : process :=
  match o with
  | Finished s evs => Process s (tr ++ evs) others
  | Suspended s evs t => Process s (tr ++ evs) (others ++ [t])
  end.

Definition occur (pr : process) (a : occurrence) : process :=
  match a with
  | Arrives arg req completion =>
      match middleware_later arg with
      | Some handler =>
          absorb (p_trace pr) (p_pending pr)
            (handler completion req (p_store pr))
      | None => pr
      end
  | Completes i =>
      match p_pending pr !! i with
      | Some t =>
          absorb (p_trace pr) (delete i (p_pending pr))
            (resume t (p_store pr))
      | None => pr
      end
  | DiskChanges w =>
      Process (Store (imports (p_store pr)) w) (p_trace pr) (p_pending pr)
  end.

(** The process starts with [imports = {}] and nothing pending. *)
Definition interleaving (w0 : W) (occs : list occurrence) : process :=
  fold_left occur occs (Process (Store ∅ w0) [] []).

(** Whatever entry [imports] holds after a callback is what the
    successful compiles recorded in the callback make of the entry that
    was there before it. *)
Definition entries_from_compiles (s s' : store) (evs : list event) : Prop :=
  ∀ source files,
    imports s' !! source = Some files →
    fold_left (success_step source) evs (imports s !! source) = Some files.

Inductive careful : thread → Prop :=
| careful_thread k :
    (∀ s, entries_from_compiles s (out_store (k s)) (out_events (k s))) →
    (∀ s t, out_pending (k s) = Some t → careful t) →
    careful (Thread k).

(** Code that leaves [imports] as it is and does not invoke the
    compiler. *)
Definition quiet (p : proc) : Prop :=
  ∀ s, imports (p s).1 = imports s ∧ none_of is_render (p s).2.

Definition careful_outcome (s : store) (o : outcome) : Prop :=
  entries_from_compiles s (out_store o) (out_events o)
  ∧ ∀ t, out_pending o = Some t → careful t.

(** The entries of a process are those of the last successful compiles of
    its history, and so will they be after the callbacks still to run. *)
Definition ledger_sound (pr : process) : Prop :=
  (∀ source files,
     imports (p_store pr) !! source = Some files →
     last_success source (p_trace pr) = Some files)
  ∧ Forall careful (p_pending pr).

(** The callbacks that a thread still has to run find the stores [ss],
    one each: all but the last do nothing and leave a callback, and the
    last one gives an outcome that [last] holds of. *)
Fixpoint then_calls (ss : list store) (t : thread)
    (last : store → outcome → Prop) : Prop :=
  match ss with
  | [] => False
  | s :: rest =>
      match rest with
      | [] => last s (resume t s)
      | _ :: _ => ∃ t', resume t s = Suspended s [] t' ∧ then_calls rest t' last
      end
  end.

(** The files found changed by stats that complete one after another,
    each on the disk of its time. *)
Fixpoint changed_files (time : Z) (completed : list (string * W))
    : list string :=
  match completed with
  | [] => []
  | (imported, w) :: rest =>
      (if import_changed w time imported then [imported] else [])
      ++ changed_files time rest
  end.

(** *** How a browser reads a diagnostic

    A style sheet that starts with a comment: the comment runs to the
    first [*/], and what follows it is read as CSS. *)
Definition comment_of (body : string) : option string :=
  if starts_with "/*" body then
    let inside := string_drop 2 body in
    (λ i, string_take i inside) <$> indexOf "*/" inside
  else None.

Definition after_comment (body : string) : option string :=
  if starts_with "/*" body then
    let inside := string_drop 2 body in
    (λ i, string_drop (i + 2) inside) <$> indexOf "*/" inside
  else None.

(** A double-quoted CSS string ends at the first double quote, and is cut
    short by a line feed, a carriage return or a form feed. *)
Definition ends_css_string (c : ascii) : bool :=
  Ascii.eqb c "034"%char || Ascii.eqb c "010"%char
  || Ascii.eqb c "013"%char || Ascii.eqb c "012"%char.

Fixpoint string_forall (f : ascii → bool) (s : string) : bool :=
  match s with
  | EmptyString => true
  | String c s' => f c && string_forall f s'
  end.

(** Of these only the line feed is escaped by [done]. *)
Definition left_as_it_is (c : ascii) : bool :=
  Ascii.eqb c "034"%char || Ascii.eqb c "013"%char || Ascii.eqb c "012"%char.

(** The text before [content: ] in the rule of a diagnostic. *)
Definition diagnostic_rule : string :=
  "body:before { white-space: pre; font-family: monospace; content: ".

(** A diagnostic for [msg] is inert when the comment is the one that holds
    [msg], and what follows it is the rule with one string that nothing
    ends before its closing quote. *)
Definition inert_diagnostic (msg body : string) : Prop :=
  comment_of body = Some (LF +:+ msg +:+ LF)
  ∧ ∃ quoted,
      after_comment body
      = Some (LF +:+ diagnostic_rule +:+ DQUOTE +:+ quoted +:+ DQUOTE)
      ∧ string_forall (λ c, negb (ends_css_string c)) quoted = true.

(** ** Basic facts *)

Lemma string_app_assoc (a b c : string) : (a +:+ b) +:+ c = a +:+ b +:+ c.
Proof.
  induction a as [|x a IH]; [done|].
  change (String x ((a +:+ b) +:+ c) = String x (a +:+ b +:+ c)).
  by rewrite IH.
Qed.

Lemma after_nil p s : after [] p s = p s.
Proof. unfold after. by destruct (p s). Qed.

Lemma after_after e1 e2 p s : after e1 (after e2 p) s = after (e1 ++ e2) p s.
Proof. unfold after. cbn. by rewrite app_assoc. Qed.

Lemma seq_emit e p s : (emit e ;; p) s = after [e] p s.
Proof. reflexivity. Qed.

Lemma seq_skip p s : (skip ;; p) s = p s.
Proof. unfold seq, skip. cbn. by destruct (p s). Qed.

Lemma seq_debug_log debug key val p s :
  (when debug (log key val) ;; p) s = after (debug_line debug key val) p s.
Proof.
  unfold when, debug_line. destruct debug.
  - apply seq_emit.
  - by rewrite seq_skip, after_nil.
Qed.

Lemma stat_run path cb s :
  stat path cb s = after [FsStat path] (cb (fs_stat (world s) path)) s.
Proof. reflexivity. Qed.

Lemma readFile_run path cb s :
  readFile path cb s
  = after [FsReadFile path] (cb (fs_readFile (world s) path)) s.
Proof. reflexivity. Qed.

Lemma none_of_app f l1 l2 :
  none_of f (l1 ++ l2) ↔ none_of f l1 ∧ none_of f l2.
Proof. unfold none_of. rewrite forallb_app. apply andb_true_iff. Qed.

Lemma none_of_elem f l e : none_of f l → e ∈ l → f e = false.
Proof.
  unfold none_of. rewrite forallb_forall. intros Hall Hin.
  apply list_elem_of_In in Hin. specialize (Hall e Hin).
  by destruct (f e).
Qed.

Lemma stat_nodes_cons (fn : option (list string) → proc) time s n rest
    pending changed :
  stat_nodes (n :: rest) time pending changed fn s
  = let changed' :=
      if import_changed (world s) time n then changed ++ [n] else changed in
    after [FsStat n]
      ((if pending - 1 =? 0 then fn (Some changed') else skip) ;;
       stat_nodes rest time (pending - 1) changed' fn) s.
Proof.
  cbn [stat_nodes]. unfold stat, import_changed.
  destruct (fs_stat (world s) n) as [err|sn]; [|destruct (mtime sn >? time)];
    reflexivity.
Qed.

Lemma stat_nodes_run (fn : option (list string) → proc) time s :
  ∀ nodes changed, nodes ≠ [] →
  stat_nodes nodes time (Z.of_nat (length nodes)) changed fn s
  = after (map FsStat nodes)
      (fn (Some (changed
                 ++ List.filter (import_changed (world s) time) nodes))) s.
Proof.
  induction nodes as [|n rest IH]; intros changed Hne; [done|].
  rewrite stat_nodes_cons. cbv zeta.
  replace (Z.of_nat (length (n :: rest)) - 1) with (Z.of_nat (length rest))
    by (cbn [length]; lia).
  destruct rest as [|n' rest'].
  - change (Z.of_nat (length []) =? 0) with true. cbv iota.
    unfold after, seq, skip. cbn.
    destruct (import_changed (world s) time n);
      cbn; rewrite ?app_nil_r; reflexivity.
  - assert (Hnz : (Z.of_nat (length (n' :: rest')) =? 0) = false)
      by (apply Z.eqb_neq; cbn [length]; lia).
    rewrite Hnz. unfold after at 1, seq, skip. cbn [fst snd].
    rewrite IH by done. unfold after. cbn [map List.filter app fst snd].
    destruct (import_changed (world s) time n);
      cbn; by rewrite <- ?app_assoc.
Qed.

Lemma checkImports_run path time fn s nodes :
  imports s !! path = Some nodes →
  checkImports path time fn s
  = match nodes with
    | [] => fn None s
    | _ :: _ =>
        after (map FsStat nodes)
          (fn (Some (List.filter (import_changed (world s) time) nodes))) s
    end.
Proof.
  intros Hn. unfold checkImports. rewrite Hn.
  destruct nodes as [|n rest]; [done|].
  change (length (n :: rest) =? 0)%nat with false. cbv iota.
  by rewrite stat_nodes_run.
Qed.

(** The import check stats nothing but the recorded files, so a file
    outside the record cannot influence its verdict. *)
Lemma filter_changed_agree (w1 w2 : W) time nodes :
  (∀ p, p ∈ nodes → fs_stat w1 p = fs_stat w2 p) →
  List.filter (import_changed w1 time) nodes
  = List.filter (import_changed w2 time) nodes.
Proof.
  induction nodes as [|n rest IH]; intros Hag; [done|].
  cbn [List.filter].
  assert (Hn : import_changed w1 time n = import_changed w2 time n).
  { unfold import_changed. by rewrite (Hag n) by apply list_elem_of_here. }
  rewrite Hn, IH; [done|].
  intros p Hp. apply Hag. by apply list_elem_of_further.
Qed.

Lemma filter_changed_nil (w : W) time nodes :
  List.filter (import_changed w time) nodes = []
  ↔ ∀ p, p ∈ nodes → ∃ st, fs_stat w p = inr st ∧ mtime st ≤ time.
Proof.
  induction nodes as [|n rest IH]; cbn [List.filter].
  - split; [intros _ p Hp; by apply elem_of_nil in Hp|done].
  - unfold import_changed at 1.
    destruct (fs_stat w n) as [err|sn] eqn:En.
    + split; [done|]. intros Hall.
      destruct (Hall n) as (st & Hst & _); [apply list_elem_of_here|].
      congruence.
    + destruct (mtime sn >? time) eqn:Hgt.
      * split; [done|]. intros Hall.
        destruct (Hall n) as (st & Hst & Hle); [apply list_elem_of_here|].
        rewrite En in Hst. injection Hst as <-. lia.
      * rewrite IH. split.
        -- intros Hall p Hp. apply elem_of_cons in Hp as [->|Hp].
           ++ exists sn. split; [done|]. lia.
           ++ by apply Hall.
        -- intros Hall p Hp. apply Hall. by apply list_elem_of_further.
Qed.

(** ** Facts about one request *)

Section decision.

Variable opts : options.
Variables force debug : bool.
Variables sassPath cssPath sassDir : string.

Local Abbreviation resolve_ := (resolve opts force debug sassPath cssPath sassDir).
Local Abbreviation compile_ := (compile opts debug sassPath cssPath sassDir).
Local Abbreviation done_ := (done opts debug sassPath cssPath).
Local Abbreviation persist_ := (persist cssPath).
Local Abbreviation checked_ :=
  (imports_checked opts debug sassPath cssPath sassDir).
Local Abbreviation render_opts_ := (render_opts opts sassDir).

Lemma checked_nil s : checked_ (Some []) s = (s, [Next NextVoid]).
Proof. reflexivity. Qed.

Lemma checked_none s : checked_ None s = (s, [Next NextVoid]).
Proof. reflexivity. Qed.

Lemma log_each_run (ch : list string) (k : proc) s :
  fold_right (λ path k, log "modified import %s" path ;; k) k ch s
  = after (map (λ path,
         ConsoleError (log_line "modified import %s" path)) ch) k s.
Proof.
  induction ch as [|c ch IH]; cbn [fold_right map].
  - by rewrite after_nil.
  - unfold log at 1. rewrite seq_emit. unfold after at 1. rewrite IH.
    reflexivity.
Qed.

Lemma checked_cons p l s :
  checked_ (Some (p :: l)) s = after (import_logs debug (p :: l)) compile_ s.
Proof.
  unfold imports_checked, import_logs, when.
  destruct debug.
  - unfold seq. rewrite log_each_run. unfold after, skip. cbn [fst snd].
    by rewrite app_nil_r.
  - unfold seq, skip, after. cbn. by destruct (compile_ s).
Qed.


Lemma error_run err s : error err s = (s, [error_event err]).
Proof. reflexivity. Qed.

Lemma persist_run text s :
  persist_ text s
  = (Store (imports s) (persist_world cssPath (world s) text),
     persist_events cssPath (world s) text).
Proof.
  unfold persist, mkdirp_done, persist_world, persist_events.
  cbv zeta. destruct (fs_mkdirp (world s) (dirname cssPath) 448) as [w1 [e|]];
    cbn [fst snd]; [done|].
  unfold writeFile. cbv zeta. rewrite seq_emit. unfold after.
  cbn [world imports].
  by destruct (fs_writeFile w1 cssPath text) as [w2 [e|]].
Qed.

Lemma done_error err s :
  done_ (inl err) s
  = (s, (if debug then [ConsoleError (log_line "error"
                          (BEL +:+ ESC +:+ "[31m" +:+ error_data sassPath err
                           +:+ ESC +:+ "[91m"))] else [])
        ++ (if o_error opts then [ErrorCallback err] else [])
        ++ [WriteHead 200 css_headers; ResEnd (error_data sassPath err)]).
Proof.
  unfold done, when, seq, emit, skip, logError, log.
  by destruct debug, (o_error opts).
Qed.

Lemma done_success r s :
  done_ (inr r) s
  = (Store (<[sassPath := includedFiles r]> (imports s))
       (if o_response opts then world s
        else persist_world cssPath (world s) (css r)),
     debug_line debug "render"
       (if o_response opts then "<response>" else sassPath)
     ++ (if o_response opts then [] else [Mkdirp (dirname cssPath) 448])
     ++ [WriteHead 200 css_headers; ResEnd (css r)]
     ++ (if o_response opts then []
         else persist_events cssPath (world s) (css r))).
Proof.
  unfold done, when, debug_line.
  destruct (o_response opts); cbn [negb].
  - unfold seq, emit, skip, imports_set, log. by destruct debug.
  - unfold seq at 1 2 3 4 5. rewrite persist_run.
    unfold seq, emit, skip, imports_set, log. by destruct debug.
Qed.

Lemma style_render_run ro s :
  style_render opts debug sassPath cssPath ro s
  = after [Render sassPath ro (render (world s) ro)]
      (done_ (render (world s) ro)) s.
Proof. reflexivity. Qed.

Lemma compile_unreadable err s :
  fs_readFile (world s) sassPath = inl err →
  compile_ s
  = (s, debug_line debug "read" cssPath
        ++ [FsReadFile sassPath; error_event err]).
Proof.
  intros Hr. unfold compile. rewrite seq_debug_log.
  unfold after. rewrite readFile_run, Hr. reflexivity.
Qed.

Lemma compile_readable str s :
  fs_readFile (world s) sassPath = inr str →
  compile_ s
  = after (debug_line debug "read" cssPath ++ [FsReadFile sassPath])
      (style_render opts debug sassPath cssPath (render_opts_ str))
      (Store (delete sassPath (imports s)) (world s)).
Proof.
  intros Hr. unfold compile. rewrite seq_debug_log.
  unfold after at 1. rewrite readFile_run, Hr.
  unfold after, seq, imports_delete. cbn [fst snd app].
  by rewrite <- app_assoc.
Qed.

Lemma resolve_forced s : force = true → resolve_ s = compile_ s.
Proof. intros Hf. unfold resolve. by rewrite Hf. Qed.

Lemma resolve_unknown s :
  imports s !! sassPath = None → resolve_ s = compile_ s.
Proof. intros Hn. unfold resolve. destruct force; [done|]. by rewrite Hn. Qed.

Lemma resolve_modified s nodes sassStats cssStats :
  force = false →
  imports s !! sassPath = Some nodes →
  fs_stat (world s) sassPath = inr sassStats →
  fs_stat (world s) cssPath = inr cssStats →
  mtime sassStats > mtime cssStats →
  resolve_ s
  = after (two_stats sassPath cssPath ++ debug_line debug "modified" cssPath)
      compile_ s.
Proof.
  intros Hf Hn Hs Hc Hgt. unfold resolve. rewrite Hf. cbv beta iota. rewrite Hn.
  assert (Hb : (mtime sassStats >? mtime cssStats) = true) by lia.
  rewrite stat_run, Hs. unfold after. rewrite stat_run, Hc, Hb.
  unfold after. rewrite seq_debug_log.
  unfold after, two_stats. cbn [fst snd app]. reflexivity.
Qed.

Lemma resolve_fresh s nodes sassStats cssStats :
  force = false →
  imports s !! sassPath = Some nodes →
  fs_stat (world s) sassPath = inr sassStats →
  fs_stat (world s) cssPath = inr cssStats →
  mtime sassStats ≤ mtime cssStats →
  resolve_ s
  = after (two_stats sassPath cssPath ++ map FsStat nodes)
      (checked_
         (Some (List.filter
                  (import_changed (world s) (mtime cssStats)) nodes))) s.
Proof.
  intros Hf Hn Hs Hc Hle. unfold resolve. rewrite Hf. cbv beta iota. rewrite Hn.
  assert (Hb : (mtime sassStats >? mtime cssStats) = false) by lia.
  rewrite stat_run, Hs. unfold after. rewrite stat_run, Hc, Hb.
  unfold after. rewrite (checkImports_run _ _ _ _ _ Hn).
  destruct nodes as [|n rest].
  - reflexivity.
  - unfold after, two_stats. cbn [fst snd app]. reflexivity.
Qed.

(** The shape of a run of [compile()]. *)
Lemma compile_cases s :
  match fs_readFile (world s) sassPath with
  | inl err =>
      compile_ s
      = (s, debug_line debug "read" cssPath
            ++ [FsReadFile sassPath; error_event err])
  | inr str =>
      let ro := render_opts_ str in
      let r := render (world s) ro in
      compile_ s
      = after (debug_line debug "read" cssPath
               ++ [FsReadFile sassPath; Render sassPath ro r])
          (done_ r) (Store (delete sassPath (imports s)) (world s))
  end.
Proof.
  destruct (fs_readFile (world s) sassPath) as [err|str] eqn:Hr.
  - by apply compile_unreadable.
  - cbv zeta. rewrite (compile_readable str) by done.
    unfold after. rewrite style_render_run. unfold after. cbn [fst snd world].
    f_equal. rewrite <- !app_assoc. reflexivity.
Qed.

Ltac shape :=
  unfold none_of, all_of, debug_line, persist_events, error_event;
  cbv zeta;
  repeat match goal with
         | |- context [fs_mkdirp ?w ?d ?m] =>
             destruct (fs_mkdirp w d m) as [? [?|]]; cbn [fst snd]
         | |- context [fs_writeFile ?w ?p ?t] =>
             destruct (fs_writeFile w p t) as [? [?|]]; cbn [fst snd]
         | |- context [if ?b then _ else _] => destruct b
         end;
  reflexivity.

Lemma done_events r s :
  none_of is_stat (done_ r s).2 ∧ none_of is_read (done_ r s).2
  ∧ none_of is_render (done_ r s).2 ∧ all_of head_ok (done_ r s).2.
Proof.
  destruct r as [err|r]; [rewrite done_error|rewrite done_success];
    cbn [snd]; repeat split; shape.
Qed.

Lemma compile_events s :
  none_of is_stat (compile_ s).2 ∧ all_of head_ok (compile_ s).2
  ∧ recompiles sassPath (compile_ s).2.
Proof.
  pose proof (compile_cases s) as Hc.
  destruct (fs_readFile (world s) sassPath) as [err|str].
  - rewrite Hc. cbn [snd]. repeat split; [shape|shape|].
    unfold recompiles. apply elem_of_app. right. apply list_elem_of_here.
  - cbv zeta in Hc. rewrite Hc. unfold after. cbn [snd].
    destruct (done_events (render (world s) (render_opts_ str))
                (Store (delete sassPath (imports s)) (world s)))
      as (Hs & _ & _ & Hh).
    repeat split.
    + apply none_of_app. split; [shape|done].
    + unfold all_of in *. rewrite forallb_app, Hh, andb_true_r. shape.
    + unfold recompiles. apply elem_of_app. left. apply elem_of_app. right.
      apply list_elem_of_here.
Qed.

Lemma all_silent_stats nodes : all_of is_silent (map FsStat nodes).
Proof. unfold all_of. by induction nodes. Qed.

Lemma all_stat_stats nodes : all_of is_stat (map FsStat nodes).
Proof. unfold all_of. by induction nodes. Qed.

Lemma silent_not_read evs : all_of is_silent evs → none_of is_read evs.
Proof.
  unfold all_of, none_of. rewrite !forallb_forall. intros Hs e He.
  specialize (Hs e He). by destruct e.
Qed.

Lemma silent_no_response evs : all_of is_silent evs → none_of is_response evs.
Proof.
  unfold all_of, none_of. rewrite !forallb_forall. intros Hs e He.
  specialize (Hs e He). by destruct e.
Qed.

Lemma silent_heads evs : all_of is_silent evs → all_of head_ok evs.
Proof.
  unfold all_of. rewrite !forallb_forall. intros Hs e He.
  specialize (Hs e He). by destruct e.
Qed.

Lemma silent_no_render evs : all_of is_silent evs → none_of is_render evs.
Proof.
  unfold all_of, none_of. rewrite !forallb_forall. intros Hs e He.
  specialize (Hs e He). by destruct e.
Qed.

Lemma all_of_app f l1 l2 : all_of f (l1 ++ l2) ↔ all_of f l1 ∧ all_of f l2.
Proof. unfold all_of. rewrite forallb_app. apply andb_true_iff. Qed.

Lemma not_read_not_recompiled evs :
  none_of is_read evs → ¬ recompiles sassPath evs.
Proof. intros Hn Hin. by pose proof (none_of_elem _ _ _ Hn Hin). Qed.

Lemma after_recompiles pre s :
  recompiles sassPath (after pre compile_ s).2.
Proof.
  unfold after, recompiles. cbn [snd]. apply elem_of_app. right.
  apply compile_events.
Qed.

(** Lines 156 to 193 either run [compile()] after some looking and
    logging, or only look, log and call [next]. *)
Lemma resolve_cases s :
  if needs_compile force sassPath cssPath s
  then ∃ pre, all_of is_silent pre ∧ resolve_ s = after pre compile_ s
  else (resolve_ s).1 = s ∧ all_of is_silent (resolve_ s).2.
Proof.
  unfold needs_compile.
  match goal with |- context [force || ?X] => set (rest := X) end.
  assert (Hf' : force = true ∨ force = false) by (destruct force; auto).
  destruct Hf' as [Hf|Hf].
  { replace (force || rest) with true by (by rewrite Hf).
    exists []. split; [done|]. rewrite after_nil. unfold resolve. by rewrite Hf. }
  replace (force || rest) with rest by (by rewrite Hf). subst rest.
  destruct (imports s !! sassPath) as [nodes|] eqn:Hn; cycle 1.
  { exists []. split; [done|]. rewrite after_nil. unfold resolve.
    rewrite Hf. cbv beta iota. by rewrite Hn. }
  destruct (fs_stat (world s) sassPath) as [err|sassStats] eqn:Hs.
  { unfold resolve. rewrite Hf. cbv beta iota. rewrite Hn, stat_run, Hs.
    by unfold after, error, next, emit. }
  destruct (fs_stat (world s) cssPath) as [err|cssStats] eqn:Hc.
  { unfold resolve. rewrite Hf. cbv beta iota. rewrite Hn, stat_run, Hs.
    unfold after. rewrite stat_run, Hc.
    destruct (String.eqb "ENOENT" (code err)).
    - exists (two_stats sassPath cssPath
              ++ debug_line debug "not found" cssPath).
      split; [by unfold debug_line; destruct debug|].
      unfold after. rewrite seq_debug_log. unfold after. cbn [fst snd app].
      reflexivity.
    - by unfold after, next, emit. }
  destruct (mtime sassStats >? mtime cssStats) eqn:Hgt; cbn [orb].
  { exists (two_stats sassPath cssPath ++ debug_line debug "modified" cssPath).
    split; [by unfold debug_line; destruct debug|].
    apply (resolve_modified s nodes sassStats cssStats); try done. lia. }
  rewrite (resolve_fresh s nodes sassStats cssStats) by (done || lia).
  destruct (List.filter _ nodes) as [|p l].
  - unfold after. rewrite checked_nil. cbn [fst snd]. split; [done|].
    apply all_of_app. split; [|done].
    apply (all_of_app _ [_; _]). split; [done|]. apply all_silent_stats.
  - exists ((two_stats sassPath cssPath ++ map FsStat nodes)
            ++ import_logs debug (p :: l)).
    split.
    + apply all_of_app. split.
      * apply (all_of_app _ [_; _]). split; [done|]. apply all_silent_stats.
      * unfold import_logs. destruct debug; [|done].
        unfold all_of. by induction (p :: l).
    + rewrite <- (after_after _ (import_logs debug (p :: l))).
      unfold after at 1 3. by rewrite checked_cons.
Qed.

Lemma resolve_recompiles_iff s :
  recompiles sassPath (resolve_ s).2
  ↔ needs_compile force sassPath cssPath s = true.
Proof.
  pose proof (resolve_cases s) as Hc.
  destruct (needs_compile force sassPath cssPath s).
  - destruct Hc as (pre & _ & ->). split; [done|]. intros _.
    apply after_recompiles.
  - destruct Hc as (_ & Hs). split; [|done]. intros Hr.
    by apply not_read_not_recompiled in Hr; [|apply silent_not_read].
Qed.

Lemma import_changed_stale w time p :
  import_changed w time p = true ↔ import_stale w time p.
Proof.
  unfold import_changed, import_stale.
  destruct (fs_stat w p) as [err|st].
  - split; [intros _; left; by exists err|done].
  - split.
    + intros Hgt. right. exists st. split; [done|]. lia.
    + intros [[err Herr]|(st' & Hst & Hgt)]; [done|].
      injection Hst as <-. lia.
Qed.

Lemma filter_changed_cons w time nodes :
  (∃ p, p ∈ nodes ∧ import_stale w time p) →
  ∃ c l, List.filter (import_changed w time) nodes = c :: l.
Proof.
  intros (p & Hin & Hst).
  destruct (List.filter (import_changed w time) nodes) as [|c l] eqn:Hfl;
    [|by exists c, l].
  apply import_changed_stale in Hst.
  assert (Hp : In p (List.filter (import_changed w time) nodes)).
  { apply filter_In. split; [by apply list_elem_of_In|done]. }
  rewrite Hfl in Hp. destruct Hp.
Qed.

Lemma filter_changed_fresh w time nodes :
  (∀ p, p ∈ nodes → import_fresh w time p) →
  List.filter (import_changed w time) nodes = [].
Proof. intros Hall. by apply filter_changed_nil. Qed.

Lemma import_logs_no_stat changed :
  none_of is_stat (import_logs debug changed).
Proof.
  unfold import_logs, none_of. destruct debug; [|done].
  by induction changed.
Qed.

Lemma resolve_pass_through s nodes sassStats cssStats :
  force = false →
  imports s !! sassPath = Some nodes →
  fs_stat (world s) sassPath = inr sassStats →
  fs_stat (world s) cssPath = inr cssStats →
  mtime sassStats ≤ mtime cssStats →
  (∀ p, p ∈ nodes → import_fresh (world s) (mtime cssStats) p) →
  resolve_ s
  = (s, two_stats sassPath cssPath ++ map FsStat nodes ++ [Next NextVoid]).
Proof.
  intros Hf Hn Hs Hc Hle Hall.
  rewrite (resolve_fresh s nodes sassStats cssStats) by done.
  rewrite filter_changed_fresh by done.
  unfold after. rewrite checked_nil. cbn [fst snd].
  by rewrite <- app_assoc.
Qed.

(** C3. A source without an entry in [imports] is compiled at once: the
    run of [resolve] is the run of [compile()] itself, whatever the disk
    says about the source or about an output file that already exists; no
    file is stat-ed, so no modification time is compared, and the source is
    read. *)
Theorem resolve_without_entry_compiles s :
  imports s !! sassPath = None →
  resolve_ s = compile_ s
  ∧ none_of is_stat (resolve_ s).2
  ∧ recompiles sassPath (resolve_ s).2.
Proof.
  intros Hn. rewrite (resolve_unknown s Hn).
  pose proof (compile_events s) as (Hs & _ & Hr). done.
Qed.

(** C1, as amended. When the force flag is unset, the source has an entry
    in [imports], both stats succeed and the source is not strictly newer
    than the output, [resolve] stats every recorded path, in the order of
    the record and after the two stats of source and output, and stats
    nothing else; it runs [compile()] when some recorded import is stale
    (its stat fails or its time is strictly newer than the output's), and
    when every recorded import is unchanged it only calls [next()] and does
    not compile. *)
Theorem resolve_checks_recorded_imports s nodes sassStats cssStats :
  force = false →
  imports s !! sassPath = Some nodes →
  fs_stat (world s) sassPath = inr sassStats →
  fs_stat (world s) cssPath = inr cssStats →
  mtime sassStats ≤ mtime cssStats →
  (∃ rest, (resolve_ s).2
           = two_stats sassPath cssPath ++ map FsStat nodes ++ rest
           ∧ none_of is_stat rest)
  ∧ ((∃ p, p ∈ nodes ∧ import_stale (world s) (mtime cssStats) p) →
     (∃ changed,
        resolve_ s
        = after (two_stats sassPath cssPath ++ map FsStat nodes
                 ++ import_logs debug changed) compile_ s)
     ∧ recompiles sassPath (resolve_ s).2)
  ∧ ((∀ p, p ∈ nodes → import_fresh (world s) (mtime cssStats) p) →
     resolve_ s
     = (s, two_stats sassPath cssPath ++ map FsStat nodes ++ [Next NextVoid])
     ∧ ¬ recompiles sassPath (resolve_ s).2).
Proof.
  intros Hf Hn Hs Hc Hle.
  pose proof (resolve_fresh s nodes sassStats cssStats Hf Hn Hs Hc Hle) as Hr.
  assert (Hstale :
    (∃ p, p ∈ nodes ∧ import_stale (world s) (mtime cssStats) p) →
    ∃ changed,
      resolve_ s
      = after (two_stats sassPath cssPath ++ map FsStat nodes
               ++ import_logs debug changed) compile_ s).
  { intros Hex.
    destruct (filter_changed_cons _ _ _ Hex) as (c & l & Hfl).
    exists (c :: l). rewrite Hr, Hfl. unfold after at 1.
    rewrite checked_cons. unfold after. cbn [fst snd].
    by rewrite <- !app_assoc. }
  split; [|split].
  - rewrite Hr.
    destruct (List.filter _ nodes) as [|c l].
    + exists [Next NextVoid]. unfold after. rewrite checked_nil. cbn [snd].
      split; [by rewrite <- app_assoc|done].
    + exists (import_logs debug (c :: l) ++ (compile_ s).2).
      unfold after at 1. rewrite checked_cons. unfold after. cbn [snd].
      split; [by rewrite <- !app_assoc|].
      apply none_of_app. split; [|apply compile_events].
      apply import_logs_no_stat.
  - intros Hex. split; [by apply Hstale|].
    destruct (Hstale Hex) as (changed & ->). apply after_recompiles.
  - intros Hall.
    rewrite (resolve_pass_through s nodes sassStats cssStats) by done.
    split; [done|]. cbn [snd]. apply not_read_not_recompiled.
    apply silent_not_read. apply (all_of_app _ [_; _]). split; [done|].
    apply all_of_app. split; [apply all_silent_stats|done].
Qed.

(** C2. With an entry in [imports] and both stats succeeding, a source
    strictly newer than the output is compiled; the comparison is [>], so
    with equal times it does not ask for a compile: an unforced [resolve]
    goes on to [checkImports], and a compile that still happens is due to
    the force flag or to a stale import. *)
Theorem resolve_compares_mtimes_strictly s nodes sassStats cssStats :
  imports s !! sassPath = Some nodes →
  fs_stat (world s) sassPath = inr sassStats →
  fs_stat (world s) cssPath = inr cssStats →
  (mtime sassStats > mtime cssStats → recompiles sassPath (resolve_ s).2)
  ∧ (mtime sassStats > mtime cssStats → force = false →
     resolve_ s
     = after (two_stats sassPath cssPath
              ++ debug_line debug "modified" cssPath) compile_ s)
  ∧ (mtime sassStats = mtime cssStats → force = false →
     resolve_ s
     = after (two_stats sassPath cssPath)
         (checkImports sassPath (mtime cssStats) checked_) s)
  ∧ (mtime sassStats = mtime cssStats →
     recompiles sassPath (resolve_ s).2 →
     force = true
     ∨ ∃ p, p ∈ nodes ∧ import_stale (world s) (mtime cssStats) p).
Proof.
  intros Hn Hs Hc.
  assert (Hf' : force = true ∨ force = false) by (destruct force; auto).
  split; [|split; [|split]].
  - intros Hgt. destruct Hf' as [Hf|Hf].
    + rewrite (resolve_forced s Hf). apply compile_events.
    + rewrite (resolve_modified s nodes sassStats cssStats) by done.
      apply after_recompiles.
  - intros Hgt Hf. by apply (resolve_modified s nodes sassStats cssStats).
  - intros Heq Hf.
    rewrite (resolve_fresh s nodes sassStats cssStats) by (done || lia).
    unfold after. rewrite (checkImports_run _ _ _ _ _ Hn).
    destruct nodes as [|n rest]; [done|].
    unfold after. cbn [fst snd]. by rewrite <- app_assoc.
  - intros Heq Hrec. destruct Hf' as [Hf|Hf]; [by left|right].
    destruct (List.filter (import_changed (world s) (mtime cssStats)) nodes)
      as [|c l] eqn:Hfl.
    + exfalso. revert Hrec.
      rewrite (resolve_pass_through s nodes sassStats cssStats);
        [|done|done|done|done|lia|by apply filter_changed_nil].
      cbn [snd]. apply not_read_not_recompiled, silent_not_read.
      apply (all_of_app _ [_; _]). split; [done|].
      apply all_of_app. split; [apply all_silent_stats|done].
    + exists c. assert (Hin : In c (c :: l)) by (by left).
      rewrite <- Hfl in Hin. apply filter_In in Hin as [Hin Hch].
      split; [by apply list_elem_of_In|by apply import_changed_stale].
Qed.

(** C4, as amended. With the force flag unset, an entry in [imports], a
    source that is not strictly newer than the output and no stale import,
    [resolve] does not compile and does not answer the request itself: it
    reads no file and writes no head or body, leaves [imports] and the disk
    as they are, and hands the request on with [next()], so that the cached
    file is served by whatever handler follows. *)
Theorem resolve_cache_hit_calls_next s nodes sassStats cssStats :
  force = false →
  imports s !! sassPath = Some nodes →
  fs_stat (world s) sassPath = inr sassStats →
  fs_stat (world s) cssPath = inr cssStats →
  mtime sassStats ≤ mtime cssStats →
  (∀ p, p ∈ nodes → import_fresh (world s) (mtime cssStats) p) →
  (resolve_ s).1 = s
  ∧ (∃ looked, all_of is_stat looked
               ∧ (resolve_ s).2 = looked ++ [Next NextVoid])
  ∧ none_of is_read (resolve_ s).2
  ∧ none_of is_response (resolve_ s).2
  ∧ none_of is_render (resolve_ s).2.
Proof.
  intros Hf Hn Hs Hc Hle Hall.
  rewrite (resolve_pass_through s nodes sassStats cssStats) by done.
  cbn [fst snd].
  assert (Hsil : all_of is_silent
            (two_stats sassPath cssPath ++ map FsStat nodes
             ++ [Next NextVoid])).
  { apply (all_of_app _ [_; _]). split; [done|].
    apply all_of_app. split; [apply all_silent_stats|done]. }
  split; [done|split; [|split; [|split]]].
  - exists (two_stats sassPath cssPath ++ map FsStat nodes).
    split; [|by rewrite <- app_assoc].
    apply (all_of_app _ [_; _]). split; [done|].
    apply all_stat_stats.
  - by apply silent_not_read.
  - by apply silent_no_response.
  - by apply silent_no_render.
Qed.

Lemma compile_success s str r :
  fs_readFile (world s) sassPath = inr str →
  render (world s) (render_opts_ str) = inr r →
  compile_ s
  = (Store (<[sassPath := includedFiles r]> (imports s))
       (if o_response opts then world s
        else persist_world cssPath (world s) (css r)),
     (debug_line debug "read" cssPath
      ++ [FsReadFile sassPath; Render sassPath (render_opts_ str) (inr r)])
     ++ debug_line debug "render"
          (if o_response opts then "<response>" else sassPath)
     ++ (if o_response opts then [] else [Mkdirp (dirname cssPath) 448])
     ++ [WriteHead 200 css_headers; ResEnd (css r)]
     ++ (if o_response opts then []
         else persist_events cssPath (world s) (css r))).
Proof.
  intros Hr Hok. pose proof (compile_cases s) as Hc.
  rewrite Hr in Hc. cbv zeta in Hc. rewrite Hok in Hc. rewrite Hc.
  unfold after. rewrite done_success. cbn [fst snd imports world].
  by rewrite insert_delete_eq.
Qed.

Lemma compile_failure s str err :
  fs_readFile (world s) sassPath = inr str →
  render (world s) (render_opts_ str) = inl err →
  compile_ s
  = (Store (delete sassPath (imports s)) (world s),
     (debug_line debug "read" cssPath
      ++ [FsReadFile sassPath; Render sassPath (render_opts_ str) (inl err)])
     ++ (if debug
         then [ConsoleError (log_line "error"
                 (BEL +:+ ESC +:+ "[31m" +:+ error_data sassPath err
                  +:+ ESC +:+ "[91m"))]
         else [])
     ++ (if o_error opts then [ErrorCallback err] else [])
     ++ [WriteHead 200 css_headers; ResEnd (error_data sassPath err)]).
Proof.
  intros Hr Hko. pose proof (compile_cases s) as Hc.
  rewrite Hr in Hc. cbv zeta in Hc. rewrite Hko in Hc. rewrite Hc.
  unfold after. by rewrite done_error.
Qed.

Lemma needs_compile_agree (s1 s2 : store) nodes :
  imports s1 = imports s2 →
  imports s1 !! sassPath = Some nodes →
  fs_stat (world s1) sassPath = fs_stat (world s2) sassPath →
  fs_stat (world s1) cssPath = fs_stat (world s2) cssPath →
  (∀ p, p ∈ nodes → fs_stat (world s1) p = fs_stat (world s2) p) →
  needs_compile force sassPath cssPath s1
  = needs_compile force sassPath cssPath s2.
Proof.
  intros Hi Hn Hs Hc Hag. unfold needs_compile.
  rewrite <- Hi, Hn, <- Hs, <- Hc.
  destruct (fs_stat (world s1) sassPath); [done|].
  destruct (fs_stat (world s1) cssPath) as [|cssStats]; [done|].
  by rewrite (filter_changed_agree (world s1) (world s2) _ nodes Hag).
Qed.

(** A request alone, whose read succeeds: the compiler is invoked in a
    store from which the entry of the source has been deleted.  When the
    compiler succeeds the entry becomes exactly the list of included files
    it returned: the table is the old one with that single key overwritten,
    nothing of the old list is kept.  Hence a file [f] that the new list
    does not contain (in particular one that only the old list contained)
    is never stat-ed by [checkImports] for this source, whose verdict is
    the same before and after a change of [f]; and, [f] not being the
    source or the output itself, [resolve] compiles after the change
    exactly when it would have compiled without it. *)
Lemma compile_replaces_entry s str :
  fs_readFile (world s) sassPath = inr str →
  let ro := render_opts_ str in
  let cleared := Store (delete sassPath (imports s)) (world s) in
  compile_ s
  = after (debug_line debug "read" cssPath ++ [FsReadFile sassPath])
      (style_render opts debug sassPath cssPath ro) cleared
  ∧ imports cleared !! sassPath = None
  ∧ ∀ r, render (world s) ro = inr r →
      imports (compile_ s).1 = <[sassPath := includedFiles r]> (imports s)
      ∧ imports (compile_ s).1 !! sassPath = Some (includedFiles r)
      ∧ ∀ f w1 w2,
          f ∉ includedFiles r →
          (∀ p, p ≠ f → fs_stat w1 p = fs_stat w2 p) →
          let s1 := Store (imports (compile_ s).1) w1 in
          let s2 := Store (imports (compile_ s).1) w2 in
          (∀ time fn, ∃ verdict,
             checkImports sassPath time fn s1
             = after (map FsStat (includedFiles r)) (fn verdict) s1
             ∧ checkImports sassPath time fn s2
               = after (map FsStat (includedFiles r)) (fn verdict) s2)
          ∧ (FsStat f ∉ map FsStat (includedFiles r))
          ∧ (f ≠ sassPath → f ≠ cssPath →
             (recompiles sassPath (resolve_ s1).2
              ↔ recompiles sassPath (resolve_ s2).2)).
Proof.
  intros Hr ro cleared. split; [by apply compile_readable|].
  split; [apply lookup_delete_eq|].
  intros r Hok. rewrite (compile_success s str r Hr Hok). cbn [fst imports].
  split; [done|]. split; [apply lookup_insert_eq|].
  intros f w1 w2 Hf Hag.
  set (s1 := Store (<[sassPath := includedFiles r]> (imports s)) w1).
  set (s2 := Store (<[sassPath := includedFiles r]> (imports s)) w2).
  assert (Hn1 : imports s1 !! sassPath = Some (includedFiles r))
    by apply lookup_insert_eq.
  assert (Hnodes : ∀ p, p ∈ includedFiles r → fs_stat w1 p = fs_stat w2 p).
  { intros p Hp. apply Hag. intros ->. done. }
  split; [|split].
  - intros time fn.
    rewrite (checkImports_run sassPath time fn s1 _ Hn1).
    rewrite (checkImports_run sassPath time fn s2 _ Hn1).
    destruct (includedFiles r) as [|n rest] eqn:Hinc.
    + exists None. by rewrite !after_nil.
    + exists (Some (List.filter (import_changed w1 time) (n :: rest))).
      split; [done|]. cbn [world].
      by rewrite (filter_changed_agree w1 w2 time (n :: rest) Hnodes).
  - intros Hin. apply list_elem_of_fmap in Hin as (p & Hp & Hin).
    injection Hp as ->. done.
  - intros Hfs Hfc. rewrite !resolve_recompiles_iff.
    rewrite (needs_compile_agree s1 s2 (includedFiles r)); try done.
    + apply Hag. congruence.
    + apply Hag. congruence.
Qed.

(** C6. When the compiler returns an error, the entry deleted before the
    call stays absent (the rest of [imports] is untouched), neither
    [mkdirp] nor [fs.writeFile] is called and the disk is as it was, so the
    output file reads as before. *)
Theorem compile_error_keeps_ledger_clear_and_output s str err :
  fs_readFile (world s) sassPath = inr str →
  render (world s) (render_opts_ str) = inl err →
  imports (compile_ s).1 = delete sassPath (imports s)
  ∧ imports (compile_ s).1 !! sassPath = None
  ∧ none_of is_write (compile_ s).2
  ∧ world (compile_ s).1 = world s
  ∧ fs_readFile (world (compile_ s).1) cssPath
    = fs_readFile (world s) cssPath.
Proof.
  intros Hr Hko. rewrite (compile_failure s str err Hr Hko).
  cbn [fst snd imports world].
  split; [done|]. split; [apply lookup_delete_eq|]. split; [shape|done].
Qed.

(** When the compiler returns an error, the request is answered, not
    handed on: [next] is not called, and the response is one head with
    status 200 followed by one body.  The body is a CSS comment holding the
    compiler's message followed by [ in <source path>:<line>:<column>], and
    a [body:before] rule whose [content] string repeats that text with its
    newlines escaped. *)
Lemma compile_error_response s str err :
  fs_readFile (world s) sassPath = inr str →
  render (world s) (render_opts_ str) = inl err →
  let location :=
    sassPath +:+ ":" +:+ pretty (line err) +:+ ":" +:+ pretty (column err) in
  let text := error_data sassPath err in
  (∃ pre, (compile_ s).2 = pre ++ [WriteHead 200 css_headers; ResEnd text]
          ∧ none_of is_response pre)
  ∧ none_of is_next (compile_ s).2
  ∧ text
    = "/*" +:+ LF +:+ (message err +:+ " in " +:+ location) +:+ LF +:+ "*/"
      +:+ LF
      +:+ "body:before { white-space: pre; font-family: monospace; content: "
      +:+ DQUOTE +:+ escape_newlines (message err +:+ " in " +:+ location)
      +:+ DQUOTE
  ∧ substring_of (message err) text
  ∧ substring_of location text.
Proof.
  intros Hr Hko location text.
  rewrite (compile_failure s str err Hr Hko). cbn [snd].
  split; [|split; [|split; [|split]]].
  - match goal with
    | |- ∃ pre, ?a ++ ?b ++ ?c ++ ?d = _ ∧ _ => exists (a ++ b ++ c)
    end.
    split; [by rewrite <- !app_assoc|shape].
  - shape.
  - reflexivity.
  - exists ("/*" +:+ LF). eexists. unfold text, error_data, error_message.
    cbv zeta. rewrite !string_app_assoc. reflexivity.
  - exists ("/*" +:+ LF +:+ message err +:+ " in "). eexists.
    unfold text, error_data, error_message, location.
    cbv zeta. rewrite !string_app_assoc. reflexivity.
Qed.

(** C9, as amended. After a successful compile outside response mode,
    [done] records the included files, calls [mkdirp], and writes the head
    (200) and the compiled text held in memory; only then do the callbacks
    of [mkdirp] and [fs.writeFile] run.  They log nothing and write no head
    or body, so the response already written stays as it is; but a failure
    is not logged either: it goes to [error], which calls [next] with
    [null] for ENOENT and with the error otherwise, and a failure of
    [mkdirp] skips the write. *)
Theorem done_answers_before_persisting s r :
  o_response opts = false →
  let w := world s in
  let made := fs_mkdirp w (dirname cssPath) 448 in
  let written := fs_writeFile made.1 cssPath (css r) in
  let background := persist_events cssPath w (css r) in
  (done_ (inr r) s).2
  = debug_line debug "render" sassPath
    ++ [Mkdirp (dirname cssPath) 448; WriteHead 200 css_headers;
        ResEnd (css r)]
    ++ background
  ∧ imports (done_ (inr r) s).1 = <[sassPath := includedFiles r]> (imports s)
  ∧ none_of is_log background
  ∧ none_of is_response background
  ∧ (∀ e, made.2 = Some e → background = [error_event e])
  ∧ (∀ e, made.2 = None → written.2 = Some e →
     background = [FsWriteFile cssPath (css r); error_event e])
  ∧ (made.2 = None → written.2 = None →
     background = [FsWriteFile cssPath (css r)]).
Proof.
  intros Hresp w made written background.
  rewrite done_success, Hresp. cbn [fst snd imports].
  split; [done|]. split; [done|].
  split; [unfold background; shape|].
  split; [unfold background; shape|].
  unfold background, persist_events. cbv zeta. fold w made written.
  split; [|split].
  - intros e He. by rewrite He.
  - intros e Hm He. by rewrite Hm, He.
  - intros Hm He. by rewrite Hm, He.
Qed.

Lemma compile_response s : one_css_response_at_most (compile_ s).2.
Proof.
  pose proof (compile_cases s) as Hc.
  destruct (fs_readFile (world s) sassPath) as [err|str] eqn:Hr.
  - left. rewrite Hc. cbn [snd]. shape.
  - destruct (render (world s) (render_opts_ str)) as [err|r] eqn:Hren.
    + right. rewrite (compile_failure s str err Hr Hren). cbn [snd].
      match goal with
      | |- ∃ pre body post, ?a ++ ?b ++ ?c ++ [_; ResEnd ?d] = _ ∧ _ =>
          exists (a ++ b ++ c), d, []
      end.
      split; [by rewrite app_nil_r, <- !app_assoc|].
      split; [shape|done].
    + right. rewrite (compile_success s str r Hr Hren). cbn [snd].
      match goal with
      | |- ∃ pre body post,
             ?a ++ ?b ++ ?c ++ [_; ResEnd ?d] ++ ?e = _ ∧ _ =>
          exists (a ++ b ++ c), d, e
      end.
      split; [by rewrite <- !app_assoc|].
      split; shape.
Qed.

Lemma response_after pre evs :
  all_of is_silent pre →
  one_css_response_at_most evs → one_css_response_at_most (pre ++ evs).
Proof.
  intros Hs [Hn|(p & body & post & -> & Hp & Hpost)].
  - left. apply none_of_app. split; [by apply silent_no_response|done].
  - right. exists (pre ++ p), body, post. split; [by rewrite <- app_assoc|].
    split; [|done]. apply none_of_app.
    split; [by apply silent_no_response|done].
Qed.

Lemma resolve_response s :
  all_of head_ok (resolve_ s).2 ∧ one_css_response_at_most (resolve_ s).2.
Proof.
  pose proof (resolve_cases s) as Hc.
  destruct (needs_compile force sassPath cssPath s).
  - destruct Hc as (pre & Hs & ->). unfold after. cbn [snd]. split.
    + apply all_of_app. split; [by apply silent_heads|apply compile_events].
    + apply response_after; [done|apply compile_response].
  - destruct Hc as (_ & Hs). split; [by apply silent_heads|].
    left. by apply silent_no_response.
Qed.


(** ** The remaining branches of the decision *)

Lemma resolve_source_unstatable s nodes err :
  force = false →
  imports s !! sassPath = Some nodes →
  fs_stat (world s) sassPath = inl err →
  resolve_ s = (s, [FsStat sassPath; error_event err]).
Proof.
  intros Hf Hn Hs. unfold resolve. rewrite Hf. cbv beta iota.
  rewrite Hn, stat_run, Hs. reflexivity.
Qed.

Lemma resolve_output_unstatable s nodes sassStats err :
  force = false →
  imports s !! sassPath = Some nodes →
  fs_stat (world s) sassPath = inr sassStats →
  fs_stat (world s) cssPath = inl err →
  resolve_ s
  = if String.eqb "ENOENT" (code err)
    then after (two_stats sassPath cssPath
                ++ debug_line debug "not found" cssPath) compile_ s
    else (s, two_stats sassPath cssPath ++ [Next (NextErr err)]).
Proof.
  intros Hf Hn Hs Hc. unfold resolve. rewrite Hf. cbv beta iota.
  rewrite Hn, stat_run, Hs. unfold after. rewrite stat_run, Hc.
  destruct (String.eqb "ENOENT" (code err)).
  - unfold after. rewrite seq_debug_log. unfold after. reflexivity.
  - reflexivity.
Qed.

(** Every branch of lines 156 to 193, with the events it emits. *)
Lemma resolve_explicit s :
  resolve_ s
  = if force then compile_ s
    else
      match imports s !! sassPath with
      | None => compile_ s
      | Some nodes =>
          match fs_stat (world s) sassPath with
          | inl err => (s, [FsStat sassPath; error_event err])
          | inr sassStats =>
              match fs_stat (world s) cssPath with
              | inl err =>
                  if String.eqb "ENOENT" (code err)
                  then after (two_stats sassPath cssPath
                              ++ debug_line debug "not found" cssPath)
                         compile_ s
                  else (s, two_stats sassPath cssPath ++ [Next (NextErr err)])
              | inr cssStats =>
                  if mtime sassStats >? mtime cssStats
                  then after (two_stats sassPath cssPath
                              ++ debug_line debug "modified" cssPath)
                         compile_ s
                  else
                    match List.filter
                            (import_changed (world s) (mtime cssStats)) nodes
                    with
                    | [] =>
                        (s, two_stats sassPath cssPath ++ map FsStat nodes
                            ++ [Next NextVoid])
                    | c :: l =>
                        after (two_stats sassPath cssPath ++ map FsStat nodes
                               ++ import_logs debug (c :: l)) compile_ s
                    end
              end
          end
      end.
Proof.
  assert (Hf' : force = true ∨ force = false) by (destruct force; auto).
  destruct Hf' as [Hf|Hf].
  { rewrite (resolve_forced s Hf). by rewrite Hf. }
  rewrite Hf at 2. cbv iota.
  destruct (imports s !! sassPath) as [nodes|] eqn:Hn;
    [|by apply resolve_unknown].
  destruct (fs_stat (world s) sassPath) as [err|sassStats] eqn:Hs;
    [by apply (resolve_source_unstatable s nodes)|].
  destruct (fs_stat (world s) cssPath) as [err|cssStats] eqn:Hc;
    [by apply (resolve_output_unstatable s nodes sassStats)|].
  destruct (mtime sassStats >? mtime cssStats) eqn:Hgt.
  { apply (resolve_modified s nodes sassStats cssStats); try done. lia. }
  rewrite (resolve_fresh s nodes sassStats cssStats) by (done || lia).
  destruct (List.filter _ nodes) as [|c l].
  - unfold after. rewrite checked_nil. cbn [fst snd].
    by rewrite <- app_assoc.
  - unfold after at 1. rewrite checked_cons. unfold after. cbn [fst snd].
    by rewrite <- !app_assoc.
Qed.

(** Every outcome of [compile()], with the events it emits. *)
Lemma compile_explicit s :
  compile_ s
  = match fs_readFile (world s) sassPath with
    | inl err =>
        (s, debug_line debug "read" cssPath
            ++ [FsReadFile sassPath; error_event err])
    | inr str =>
        match render (world s) (render_opts_ str) with
        | inl err =>
            (Store (delete sassPath (imports s)) (world s),
             (debug_line debug "read" cssPath
              ++ [FsReadFile sassPath;
                  Render sassPath (render_opts_ str) (inl err)])
             ++ (if debug
                 then [ConsoleError (log_line "error"
                         (BEL +:+ ESC +:+ "[31m" +:+ error_data sassPath err
                          +:+ ESC +:+ "[91m"))]
                 else [])
             ++ (if o_error opts then [ErrorCallback err] else [])
             ++ [WriteHead 200 css_headers;
                 ResEnd (error_data sassPath err)])
        | inr r =>
            (Store (<[sassPath := includedFiles r]> (imports s))
               (if o_response opts then world s
                else persist_world cssPath (world s) (css r)),
             (debug_line debug "read" cssPath
              ++ [FsReadFile sassPath;
                  Render sassPath (render_opts_ str) (inr r)])
             ++ debug_line debug "render"
                  (if o_response opts then "<response>" else sassPath)
             ++ (if o_response opts then []
                 else [Mkdirp (dirname cssPath) 448])
             ++ [WriteHead 200 css_headers; ResEnd (css r)]
             ++ (if o_response opts then []
                 else persist_events cssPath (world s) (css r)))
        end
    end.
Proof.
  destruct (fs_readFile (world s) sassPath) as [err|str] eqn:Hr.
  - by apply compile_unreadable.
  - destruct (render (world s) (render_opts_ str)) as [err|r] eqn:Hren.
    + by apply compile_failure.
    + by apply compile_success.
Qed.

(** Lists of stats and of debug lines, under a test on events. *)
Lemma forallb_stats f nodes :
  (∀ p, f (FsStat p) = true) → forallb f (map FsStat nodes) = true.
Proof. intros Hf. induction nodes as [|n l IH]; [done|]. cbn. by rewrite Hf. Qed.

Lemma forallb_import_logs f changed :
  (∀ t, f (ConsoleError t) = true) →
  forallb f (import_logs debug changed) = true.
Proof.
  intros Hf. unfold import_logs. destruct debug; [|done].
  induction changed as [|c l IH]; [done|]. cbn. by rewrite Hf.
Qed.

Lemma forallb_debug_line f key val :
  (∀ t, f (ConsoleError t) = true) →
  forallb f (debug_line debug key val) = true.
Proof. intros Hf. unfold debug_line. destruct debug; [|done]. cbn. by rewrite Hf. Qed.

Lemma omap_stats {A} (g : event → option A) nodes :
  (∀ p, g (FsStat p) = None) → omap g (map FsStat nodes) = [].
Proof. intros Hg. induction nodes as [|n l IH]; [done|]. cbn. by rewrite Hg. Qed.

Lemma omap_import_logs {A} (g : event → option A) changed :
  (∀ t, g (ConsoleError t) = None) → omap g (import_logs debug changed) = [].
Proof.
  intros Hg. unfold import_logs. destruct debug; [|done].
  induction changed as [|c l IH]; [done|]. cbn. by rewrite Hg.
Qed.

Lemma omap_debug_line {A} (g : event → option A) key val :
  (∀ t, g (ConsoleError t) = None) → omap g (debug_line debug key val) = [].
Proof. intros Hg. unfold debug_line. destruct debug; [|done]. cbn. by rewrite Hg. Qed.

Lemma filter_all (f : event → bool) l :
  forallb f l = true → List.filter f l = l.
Proof.
  induction l as [|e l IH]; [done|]. cbn.
  destruct (f e); [|done]. cbn. intros Hl. by rewrite IH.
Qed.

Lemma filter_none (f : event → bool) l :
  forallb (λ e, negb (f e)) l = true → List.filter f l = [].
Proof.
  induction l as [|e l IH]; [done|]. cbn.
  destruct (f e); [done|]. cbn. exact IH.
Qed.

(** Splits a test over the pieces of a run and settles the pieces. *)
Ltac pieces :=
  unfold none_of, all_of in *;
  repeat rewrite forallb_app;
  repeat first
    [ rewrite forallb_stats by (intros; reflexivity)
    | rewrite forallb_import_logs by (intros; reflexivity)
    | rewrite forallb_debug_line by (intros; reflexivity) ];
  unfold persist_events, persist_world, error_event, two_stats;
  cbv zeta;
  repeat match goal with
         | |- context [fs_mkdirp ?w ?d ?m] =>
             destruct (fs_mkdirp w d m) as [? [?|]]; cbn [fst snd]
         | |- context [fs_writeFile ?w ?p ?t] =>
             destruct (fs_writeFile w p t) as [? [?|]]; cbn [fst snd]
         | |- context [if ?b then _ else _] => destruct b
         end;
  cbn; rewrite ?bool_decide_eq_true_2 by reflexivity;
  try reflexivity.

(** The same for what [omap] reads off a run. *)
Ltac picks :=
  repeat rewrite omap_app;
  repeat first
    [ rewrite omap_stats by (intros; reflexivity)
    | rewrite omap_import_logs by (intros; reflexivity)
    | rewrite omap_debug_line by (intros; reflexivity) ];
  unfold persist_events, persist_world, error_event, two_stats;
  cbv zeta;
  repeat match goal with
         | |- context [fs_mkdirp ?w ?d ?m] =>
             destruct (fs_mkdirp w d m) as [? [?|]]; cbn [fst snd]
         | |- context [fs_writeFile ?w ?p ?t] =>
             destruct (fs_writeFile w p t) as [? [?|]]; cbn [fst snd]
         | |- context [if ?b then _ else _] => destruct b
         end;
  cbn.

(** Opens [resolve] and [compile] into their branches. *)
Ltac branches s :=
  rewrite (resolve_explicit s);
  repeat match goal with
         | |- context [match imports s !! ?p with _ => _ end] =>
             destruct (imports s !! p)
         | |- context [match fs_stat ?w ?p with _ => _ end] =>
             destruct (fs_stat w p)
         | |- context [match List.filter ?f ?l with _ => _ end] =>
             destruct (List.filter f l)
         | |- context [if ?a >? ?b then _ else _] => destruct (a >? b)
         | |- context [if String.eqb ?a ?b then _ else _] =>
             destruct (String.eqb a b)
         | |- context [if force then _ else _] => destruct force
         end;
  unfold after; rewrite ?(compile_explicit s);
  repeat match goal with
         | |- context [match fs_readFile ?w ?p with _ => _ end] =>
             destruct (fs_readFile w p) eqn:?
         | |- context [match render ?w ?o with _ => _ end] =>
             destruct (render w o) eqn:?
         end;
  cbn [fst snd imports world].

(** In response mode the decision and the compile leave the disk alone. *)
Lemma resolve_response_mode_disk s :
  o_response opts = true →
  world (resolve_ s).1 = world s ∧ none_of is_write (resolve_ s).2.
Proof.
  intros Hresp. branches s; rewrite ?Hresp; split; try reflexivity; pieces.
Qed.

(** X5. When the source cannot be read, [compile()] hands the request on
    and does nothing else: [next(null)] for ENOENT and [next(err)]
    otherwise; the compiler is not invoked, no response is written, and
    [imports] is left as it was, so an entry recorded earlier for the
    source is not deleted. *)
Theorem compile_unreadable_source_is_handed_on s err :
  fs_readFile (world s) sassPath = inl err →
  (compile_ s).1 = s
  ∧ omap next_of (compile_ s).2
    = [if String.eqb "ENOENT" (code err) then NextNull else NextErr err]
  ∧ omap render_of (compile_ s).2 = []
  ∧ omap body_of (compile_ s).2 = []
  ∧ none_of is_write (compile_ s).2.
Proof.
  intros Hr. rewrite (compile_unreadable err s Hr). cbn [fst snd].
  split; [done|]. repeat split; try (picks; reflexivity). pieces.
Qed.

(** X6. With an entry in [imports] and no force flag, a source that
    cannot be stat-ed ends the request at once: the output is not stat-ed,
    nothing is read, compiled or answered, the store is unchanged (the
    entry stays), and [next] gets [null] for ENOENT and the error
    otherwise. *)
Theorem resolve_source_stat_failure_is_handed_on s nodes err :
  force = false →
  imports s !! sassPath = Some nodes →
  fs_stat (world s) sassPath = inl err →
  resolve_ s
  = (s, [FsStat sassPath;
         Next (if String.eqb "ENOENT" (code err)
               then NextNull else NextErr err)])
  ∧ ¬ recompiles sassPath (resolve_ s).2.
Proof.
  intros Hf Hn Hs.
  rewrite (resolve_source_unstatable s nodes err Hf Hn Hs).
  split; [done|]. by apply not_read_not_recompiled.
Qed.

(** X7. With an entry in [imports] and no force flag, a failing stat of
    the output is told apart by its code: ENOENT means that the output has
    not been compiled yet, and [compile()] runs without looking at the
    imports; any other error is passed to [next] as it is, and nothing is
    compiled or answered. *)
Theorem resolve_output_stat_failure s nodes sassStats err :
  force = false →
  imports s !! sassPath = Some nodes →
  fs_stat (world s) sassPath = inr sassStats →
  fs_stat (world s) cssPath = inl err →
  (code err = "ENOENT" →
   resolve_ s
   = after (two_stats sassPath cssPath
            ++ debug_line debug "not found" cssPath) compile_ s
   ∧ recompiles sassPath (resolve_ s).2)
  ∧ (code err ≠ "ENOENT" →
     resolve_ s = (s, two_stats sassPath cssPath ++ [Next (NextErr err)])
     ∧ ¬ recompiles sassPath (resolve_ s).2).
Proof.
  intros Hf Hn Hs Hc.
  rewrite (resolve_output_unstatable s nodes sassStats err Hf Hn Hs Hc).
  split.
  - intros Hcode. rewrite Hcode, String.eqb_refl.
    split; [done|]. apply after_recompiles.
  - intros Hcode.
    destruct (String.eqb_spec "ENOENT" (code err)) as [Heq|_]; [congruence|].
    split; [done|]. by apply not_read_not_recompiled.
Qed.

(** X9. A request touches no entry of [imports] but that of its own
    source. *)
Theorem resolve_keeps_other_entries s other :
  other ≠ sassPath →
  imports (resolve opts force debug sassPath cssPath sassDir s).1 !! other
  = imports s !! other.
Proof.
  intros Hne.
  branches s;
    rewrite ?lookup_delete_ne, ?lookup_insert_ne by congruence; reflexivity.
Qed.

(** X10. What a request writes to the disk is what it has sent: either
    nothing is persisted, or, outside response mode, [mkdirp] is called
    once, on the directory of the output with mode 0700, one body is sent,
    and [fs.writeFile], if it is reached, is called once, on the output
    path with that very body. *)
Theorem resolve_persists_what_it_sent s :
  (omap mkdirp_of (resolve_ s).2 = [] ∧ omap write_of (resolve_ s).2 = [])
  ∨ (o_response opts = false
     ∧ omap mkdirp_of (resolve_ s).2 = [(dirname cssPath, 448)]
     ∧ ∃ text,
         omap body_of (resolve_ s).2 = [text]
         ∧ (omap write_of (resolve_ s).2 = []
            ∨ omap write_of (resolve_ s).2 = [(cssPath, text)])).
Proof.
  destruct (o_response opts) eqn:Hresp;
    branches s; rewrite ?Hresp;
    first
      [ solve [left; split; picks; reflexivity]
      | right; split; [reflexivity|]; split; [picks; reflexivity|];
        match goal with
        | |- context [ResEnd ?t] => exists t
        end;
        split; [picks; reflexivity|]; picks; auto ].
Qed.

(** Every request that reaches the decision is finished, once. *)
Lemma resolve_finishes s :
  (length (omap next_of (resolve_ s).2) ≤ 1)%nat
  ∧ (length (omap body_of (resolve_ s).2) ≤ 1)%nat
  ∧ (1 ≤ length (omap next_of (resolve_ s).2)
         + length (omap body_of (resolve_ s).2))%nat
  ∧ (o_response opts = true →
     omap next_of (resolve_ s).2 = [] ∨ omap body_of (resolve_ s).2 = []).
Proof.
  destruct (o_response opts) eqn:Hresp;
    branches s; rewrite ?Hresp; picks; repeat split; try lia; intros;
    auto; done.
Qed.

(** A request invokes the compiler at most once, and then on the text it
    has read from the source file. *)
Lemma resolve_renders_once s :
  omap render_of (resolve_ s).2 = []
  ∨ ∃ str,
      fs_readFile (world s) sassPath = inr str
      ∧ omap render_of (resolve_ s).2
        = [(sassPath, render_opts_ str,
            render (world s) (render_opts_ str))].
Proof.
  branches s;
    first
      [ solve [left; picks; reflexivity]
      | right;
        match goal with
        | Hr : fs_readFile _ _ = inr ?str, Hren : render _ _ = _ |- _ =>
            exists str; rewrite Hren
        end;
        split; [reflexivity|]; picks; reflexivity ].
Qed.

(** X14. [options.error] is called only for an error of the compiler, once
    and with that error, when the diagnostic is the body of the response;
    and whenever the compiler fails and the callback is installed, it is
    called. *)
Theorem error_callback_follows_compile_error s :
  (omap callback_of (resolve_ s).2 = []
   ∨ (o_error opts = true
      ∧ ∃ str err,
          fs_readFile (world s) sassPath = inr str
          ∧ render (world s) (render_opts_ str) = inl err
          ∧ omap callback_of (resolve_ s).2 = [err]
          ∧ omap body_of (resolve_ s).2 = [error_data sassPath err]))
  ∧ ∀ str err,
      fs_readFile (world s) sassPath = inr str →
      render (world s) (render_opts_ str) = inl err →
      o_error opts = true →
      omap callback_of (compile_ s).2 = [err].
Proof.
  split.
  - destruct (o_error opts) eqn:Herr;
      branches s; rewrite ?Herr;
      first
        [ solve [left; picks; reflexivity]
        | right; split; [reflexivity|];
          match goal with
          | Hr : fs_readFile _ _ = inr ?str,
            Hren : render _ _ = inl ?err |- _ =>
              exists str, err
          end;
          split; [reflexivity|]; split; [assumption|];
          split; picks; reflexivity ].
  - intros str err Hr Hren Herr.
    rewrite (compile_failure s str err Hr Hren), Herr. cbn [snd].
    picks; reflexivity.
Qed.

Lemma resolve_forced_no_stat s :
  force = true → none_of is_stat (resolve_ s).2.
Proof. intros Hf. rewrite (resolve_forced s Hf). apply compile_events. Qed.

(** X16. A request changes [imports] or the disk only by compiling: when
    [compile()] is not reached, or when it cannot read the source, the
    store after the request is the store before it. *)
Theorem resolve_changes_nothing_without_compiling s :
  (¬ recompiles sassPath (resolve_ s).2 → (resolve_ s).1 = s)
  ∧ (∀ err, fs_readFile (world s) sassPath = inl err → (resolve_ s).1 = s).
Proof.
  pose proof (resolve_cases s) as Hc.
  destruct (needs_compile force sassPath cssPath s).
  - destruct Hc as (pre & _ & ->). split.
    + intros Hno. exfalso. apply Hno, after_recompiles.
    + intros err Hr. unfold after. cbn [fst].
      by rewrite (compile_unreadable err s Hr).
  - destruct Hc as [Hst _]. by split.
Qed.
End decision.

(** ** Facts about the handler *)

(** A request is either handed on at once, or it reaches lines 156 to 193
    after at most two debug lines. *)
Lemma sass_cases opts force debug src dest root req s :
  sass opts force debug src dest root req s = (s, [Next NextVoid])
  ∨ ∃ sassPath cssPath sassDir pre,
      all_of is_silent pre
      ∧ sass opts force debug src dest root req s
        = after pre (resolve opts force debug sassPath cssPath sassDir) s.
Proof.
  unfold sass.
  destruct (negb (String.eqb "GET" (method req))
            && negb (String.eqb "HEAD" (method req))); [by left|].
  match goal with
  | |- context [ends_with ".css" ?p] => destruct (ends_with ".css" p)
  end; [|by left].
  right.
  match goal with
  | |- context [resolve opts force debug ?sp ?cp ?sd] =>
      exists sp, cp, sd,
        (debug_line debug "source" sp
         ++ debug_line debug "dest"
              (if o_response opts then "<response>" else cp))
  end.
  unfold debug_line. destruct debug.
  - split; reflexivity.
  - split; [done|]. unfold when. by rewrite seq_skip, after_nil.
Qed.

(** C10. Whatever the options and the request, every head the handler
    writes has status 200 and exactly the headers [Content-Type: text/css]
    and [Cache-Control: max-age=0], be the body compiled CSS or a
    diagnostic; and a request gets at most one response, the head followed
    at once by the body. *)
Theorem sass_answers_200_css opts force debug src dest root req s :
  all_of head_ok (sass opts force debug src dest root req s).2
  ∧ one_css_response_at_most (sass opts force debug src dest root req s).2.
Proof.
  destruct (sass_cases opts force debug src dest root req s)
    as [->|(sp & cp & sd & pre & Hs & ->)].
  - split; [done|by left].
  - unfold after. cbn [snd].
    destruct (resolve_response opts force debug sp cp sd s) as [Hh Ho].
    split.
    + apply all_of_app. split; [by apply silent_heads|done].
    + by apply response_after.
Qed.


(** ** Strings of the handler *)

Lemma append_cons c a b : String c a +:+ b = String c (a +:+ b).
Proof. reflexivity. Qed.

Lemma prefix_app p x y :
  String.prefix p x = true → String.prefix p (x +:+ y) = true.
Proof.
  revert x. induction p as [|c p IH]; intros x; [intros _; by destruct (x +:+ y)|].
  destruct x as [|d x]; [done|].
  rewrite append_cons. cbn.
  destruct (ascii_dec c d); [apply IH|done].
Qed.

Lemma starts_with_append p r : starts_with p (p +:+ r) = true.
Proof.
  unfold starts_with. induction p as [|c p IH]; [by destruct r|].
  rewrite append_cons. cbn. by destruct (ascii_dec c c).
Qed.

Lemma string_drop_append p r : string_drop (String.length p) (p +:+ r) = r.
Proof. induction p as [|c p IH]; [done|]. rewrite append_cons. exact IH. Qed.

Lemma starts_with_split p s :
  starts_with p s = true → s = p +:+ string_drop (String.length p) s.
Proof.
  unfold starts_with. revert s. induction p as [|c p IH]; intros s; [done|].
  destruct s as [|d s]; [done|]. cbn.
  destruct (ascii_dec c d) as [->|]; [|done].
  intros Hp. rewrite append_cons. f_equal. by apply IH.
Qed.

Lemma string_app_nil_r a : a +:+ EmptyString = a.
Proof.
  induction a as [|c a IH]; [done|]. by rewrite append_cons, IH.
Qed.

Lemma rev_app_spec b x : String.rev_app b x = String.rev b +:+ x.
Proof.
  unfold String.rev. revert x. induction b as [|c b IH]; intros x; [done|].
  cbn. rewrite (IH (String c x)), (IH (String c EmptyString)).
  by rewrite string_app_assoc.
Qed.

Lemma rev_cons c a : String.rev (String c a) = String.rev a +:+ String c EmptyString.
Proof. unfold String.rev at 1. cbn. apply rev_app_spec. Qed.

Lemma rev_append a b : String.rev (a +:+ b) = String.rev b +:+ String.rev a.
Proof.
  induction a as [|c a IH].
  - cbn. by rewrite string_app_nil_r.
  - rewrite append_cons, !rev_cons, IH. by rewrite string_app_assoc.
Qed.

Lemma rev_involutive s : String.rev (String.rev s) = s.
Proof.
  induction s as [|c s IH]; [done|].
  rewrite rev_cons, rev_append, IH. reflexivity.
Qed.

Lemma ends_with_append suf pre rest :
  ends_with suf rest = true → ends_with suf (pre +:+ rest) = true.
Proof.
  unfold ends_with. intros Hp. rewrite rev_append. by apply prefix_app.
Qed.

Lemma ends_with_spec suf s :
  ends_with suf s = true ↔ ∃ pre, s = pre +:+ suf.
Proof.
  unfold ends_with. split.
  - intros Hp. apply starts_with_split in Hp.
    exists (String.rev (string_drop (String.length (String.rev suf)) (String.rev s))).
    rewrite <- (rev_involutive s), Hp at 1.
    by rewrite rev_append, rev_involutive.
  - intros [pre ->]. rewrite rev_append. apply starts_with_append.
Qed.

(** ** Debug lines *)

Lemma without_logs_app a b :
  without_logs (a ++ b) = without_logs a ++ without_logs b.
Proof. apply List.filter_app. Qed.

Lemma without_logs_debug_line debug key val :
  without_logs (debug_line debug key val) = [].
Proof. by destruct debug. Qed.

Lemma without_logs_import_logs debug changed :
  without_logs (import_logs debug changed) = [].
Proof.
  unfold import_logs. destruct debug; [|done]. by induction changed.
Qed.

Lemma without_logs_stats nodes :
  without_logs (map FsStat nodes) = map FsStat nodes.
Proof. induction nodes as [|n l IH]; [done|]. cbn. by rewrite <- IH at 2. Qed.

Lemma without_logs_persist cssPath w text :
  without_logs (persist_events cssPath w text) = persist_events cssPath w text.
Proof.
  unfold persist_events. cbv zeta.
  destruct (fs_mkdirp w (dirname cssPath) 448) as [w1 [e|]]; cbn [fst snd];
    [done|].
  by destruct (fs_writeFile w1 cssPath text) as [w2 [e|]].
Qed.

Lemma resolve_debug_independent opts force debug sassPath cssPath sassDir s :
  (resolve opts force debug sassPath cssPath sassDir s).1
  = (resolve opts force false sassPath cssPath sassDir s).1
  ∧ without_logs (resolve opts force debug sassPath cssPath sassDir s).2
    = (resolve opts force false sassPath cssPath sassDir s).2.
Proof.
  rewrite (resolve_explicit opts force debug sassPath cssPath sassDir s),
    (resolve_explicit opts force false sassPath cssPath sassDir s).
  destruct force;
    [|destruct (imports s !! sassPath) as [nodes|];
      [destruct (fs_stat (world s) sassPath) as [err|sassStats];
        [|destruct (fs_stat (world s) cssPath) as [err|cssStats];
          [destruct (String.eqb "ENOENT" (code err))
          |destruct (mtime sassStats >? mtime cssStats);
            [|destruct (List.filter _ nodes) as [|c l]]]]|]];
    unfold after;
    rewrite ?(compile_explicit opts debug sassPath cssPath sassDir s),
      ?(compile_explicit opts false sassPath cssPath sassDir s);
    try (destruct (fs_readFile (world s) sassPath) as [err'|str];
         [|destruct (render (world s) (render_opts opts sassDir str))
             as [err'|r]]);
    cbn [fst snd]; (split; [reflexivity|]);
    repeat rewrite without_logs_app;
    rewrite ?without_logs_debug_line, ?without_logs_import_logs,
      ?without_logs_stats;
    unfold two_stats, error_event;
    destruct debug, (o_error opts), (o_response opts);
    rewrite ?without_logs_persist; reflexivity.
Qed.

(** A request is either handed on at once, or it reaches lines 156 to 193
    after its two debug lines. *)
Lemma sass_explicit opts force debug src dest root req s :
  sass opts force debug src dest root req s = (s, [Next NextVoid])
  ∨ ∃ sassPath cssPath sassDir,
      sass opts force debug src dest root req s
      = after (debug_line debug "source" sassPath
               ++ debug_line debug "dest"
                    (if o_response opts then "<response>" else cssPath))
          (resolve opts force debug sassPath cssPath sassDir) s.
Proof.
  unfold sass.
  destruct (negb (String.eqb "GET" (method req))
            && negb (String.eqb "HEAD" (method req))); [by left|].
  match goal with
  | |- context [ends_with ".css" ?p] => destruct (ends_with ".css" p)
  end; [|by left].
  right.
  match goal with
  | |- context [resolve opts force debug ?sp ?cp ?sd] => exists sp, cp, sd
  end.
  unfold debug_line. destruct debug.
  - reflexivity.
  - unfold when. by rewrite seq_skip, after_nil.
Qed.

Lemma sass_debug_independent opts force debug src dest root req s :
  (sass opts force debug src dest root req s).1
  = (sass opts force false src dest root req s).1
  ∧ without_logs (sass opts force debug src dest root req s).2
    = (sass opts force false src dest root req s).2.
Proof.
  unfold sass.
  destruct (negb (String.eqb "GET" (method req))
            && negb (String.eqb "HEAD" (method req))); [done|].
  match goal with
  | |- context [ends_with ".css" ?p] => destruct (ends_with ".css" p)
  end; [|done].
  match goal with
  | |- context [resolve opts force debug ?sp ?cp ?sd] =>
      pose proof (resolve_debug_independent opts force debug sp cp sd s)
        as [Hst Hev];
      pose proof (resolve_debug_independent opts force false sp cp sd s)
        as [_ Hev0]
  end.
  destruct debug.
  - unfold when, seq, log, emit, skip. cbn [fst snd app].
    split; [exact Hst|]. unfold without_logs in *.
    cbn [List.filter is_log negb]. exact Hev.
  - unfold when, seq, skip. cbn [fst snd app]. split; [done|exact Hev0].
Qed.

Lemma filter_fixed (f : event → bool) l :
  List.filter f l = l → forallb f l = true.
Proof.
  intros Hfl. apply forallb_forall. intros e He.
  rewrite <- Hfl in He. by apply filter_In in He as [_ He].
Qed.

(** X11. The debug flag changes nothing but the log: with it, a request
    leaves the same [imports] and the same disk, and makes the same calls
    in the same order, as without it, apart from the lines it writes to
    the console; and without it nothing is written to the console. *)
Theorem debug_only_adds_log_lines opts force debug src dest root req s :
  (sass opts force debug src dest root req s).1
  = (sass opts force false src dest root req s).1
  ∧ without_logs (sass opts force debug src dest root req s).2
    = (sass opts force false src dest root req s).2
  ∧ none_of is_log (sass opts force false src dest root req s).2.
Proof.
  destruct (sass_debug_independent opts force debug src dest root req s)
    as [Hst Hev].
  split; [exact Hst|]. split; [exact Hev|].
  apply filter_fixed.
  apply (sass_debug_independent opts force false src dest root req s).
Qed.

(** X12. Every request is finished, and at most once each way: the handler
    calls [next] at most once, sends at most one body, and does at least
    one of the two; in response mode it never does both. *)
Theorem sass_finishes_every_request opts force debug src dest root req s :
  (length (omap next_of (sass opts force debug src dest root req s).2)
   ≤ 1)%nat
  ∧ (length (omap body_of (sass opts force debug src dest root req s).2)
     ≤ 1)%nat
  ∧ (1 ≤ length (omap next_of (sass opts force debug src dest root req s).2)
         + length
             (omap body_of (sass opts force debug src dest root req s).2))%nat
  ∧ (o_response opts = true →
     omap next_of (sass opts force debug src dest root req s).2 = []
     ∨ omap body_of (sass opts force debug src dest root req s).2 = []).
Proof.
  destruct (sass_explicit opts force debug src dest root req s)
    as [->|(sp & cp & sd & ->)].
  - cbn. repeat split; try lia. intros _. by right.
  - unfold after. cbn [snd].
    rewrite !omap_app, !omap_debug_line by done. cbn [app].
    apply resolve_finishes.
Qed.

Lemma middleware_some arg handler :
  middleware arg = Some handler →
  ∃ opts src dest root,
    handler
    = sass opts (o_force opts || o_response opts) (o_debug opts) src dest root.
Proof.
  unfold middleware. intros Hm.
  destruct (o_src _) as [src|]; [|done].
  destruct (truthy (Some src)); [|done].
  injection Hm as <-. by eexists _, _, _, _.
Qed.

(** X1. The handler leaves alone what is not for it: a request whose
    method is neither GET nor HEAD, or whose path does not end in [.css],
    is handed on with [next()] and nothing else happens, whatever the
    prefix option; and HEAD is handled exactly as GET. *)
Theorem middleware_ignores_other_requests arg handler req s :
  middleware arg = Some handler →
  ((method req ≠ "GET" ∧ method req ≠ "HEAD")
   ∨ (∀ pre, pathname (url req) ≠ pre +:+ ".css") →
   handler req s = (s, [Next NextVoid]))
  ∧ ∀ u, handler (Request "HEAD" u) s = handler (Request "GET" u) s.
Proof.
  intros Hm. destruct (middleware_some arg handler Hm)
    as (opts & src & dest & root & ->).
  split; [|reflexivity].
  intros Hignore. unfold sass.
  destruct (String.eqb_spec "GET" (method req)) as [Hget|Hget];
    destruct (String.eqb_spec "HEAD" (method req)) as [Hhead|Hhead];
    cbn [negb andb]; try reflexivity;
    (destruct Hignore as [[Hg Hh]|Hpath]; [congruence|]);
    match goal with
    | |- context [ends_with ".css" ?p] =>
        destruct (ends_with ".css" p) eqn:Hends
    end; try reflexivity; exfalso;
    (destruct (o_prefix opts) as [prefix|];
       [destruct (truthy (Some prefix) && starts_with prefix (pathname (url req)))
          eqn:Hstrip|]);
    try (apply ends_with_spec in Hends as [pre Hpre];
         by apply (Hpath pre));
    apply andb_true_iff in Hstrip as [_ Hstarts];
    apply starts_with_split in Hstarts;
    apply (ends_with_append _ prefix) in Hends;
    rewrite <- Hstarts in Hends;
    apply ends_with_spec in Hends as [pre Hpre];
    by apply (Hpath pre).
Qed.

(** X2. [module.exports] throws exactly when its options hold no
    non-empty [src]; a string argument stands for [{ src: string }]; and
    with a source, the handler compiles on every request when [force] or
    [response] is set, and its destination is the source directory unless
    [dest] is given. *)
Theorem middleware_requires_a_source :
  middleware Undefined = None
  ∧ (∀ str, middleware (SrcString str) = middleware (Object (src_only str)))
  ∧ (∀ o, middleware (Object o) = None ↔ truthy (o_src o) = false)
  ∧ (∀ o src,
       o_src o = Some src → src ≠ EmptyString →
       middleware (Object o)
       = Some (sass o (o_force o || o_response o) (o_debug o) src
                 (if truthy (o_dest o) then default src (o_dest o) else src)
                 (if truthy (o_root o) then o_root o else None))).
Proof.
  split; [reflexivity|]. split; [|split].
  - intros str. unfold middleware.
    destruct (truthy (Some str)) eqn:Ht; cbn [o_src src_only empty_options];
      rewrite ?Ht; reflexivity.
  - intros o. unfold middleware. destruct (o_src o) as [src|]; [|done].
    destruct (truthy (Some src)); split; done.
  - intros o src Hsrc Hne. unfold middleware. rewrite Hsrc.
    assert (Ht : truthy (Some src) = true).
    { cbn. destruct (String.eqb_spec src EmptyString); [done|reflexivity]. }
    by rewrite Ht.
Qed.

(** X3. The prefix option only strips: a path that begins with the prefix
    is handled as the rest of the path would be without the option, and a
    path that does not begin with it is handled as it is, not refused. *)
Theorem prefix_is_stripped opts force debug src dest root m u rest prefix s :
  o_prefix opts = Some prefix →
  prefix ≠ EmptyString →
  (∀ u', pathname u = prefix +:+ rest → pathname u' = rest →
     sass opts force debug src dest root (Request m u) s
     = sass (without_prefix opts) force debug src dest root (Request m u') s)
  ∧ (starts_with prefix (pathname u) = false →
     sass opts force debug src dest root (Request m u) s
     = sass (without_prefix opts) force debug src dest root (Request m u) s).
Proof.
  intros Hp Hne.
  assert (Ht : truthy (Some prefix) = true).
  { cbn. destruct (String.eqb_spec prefix EmptyString); [done|reflexivity]. }
  split.
  - intros u' Hu Hu'. unfold sass. cbn [method url o_prefix without_prefix].
    rewrite Hp, Ht, Hu, Hu', starts_with_append, string_drop_append.
    reflexivity.
  - intros Hs. unfold sass. cbn [method url o_prefix without_prefix].
    rewrite Hp, Ht, Hs. reflexivity.
Qed.

(** X4. A middleware built with [force] or [response] never stats a file:
    it compiles on every request it handles; and built with [response] it
    never touches the disk either: neither [mkdirp] nor [fs.writeFile] is
    called, and the file system after a request is the one before it. *)
Theorem forced_middleware_never_stats o handler req s :
  middleware (Object o) = Some handler →
  o_force o || o_response o = true →
  none_of is_stat (handler req s).2
  ∧ (o_response o = true →
     none_of is_write (handler req s).2
     ∧ world (handler req s).1 = world s).
Proof.
  intros Hm Hforce. unfold middleware in Hm.
  destruct (o_src o) as [src|]; [|done].
  destruct (truthy (Some src)); [|done].
  injection Hm as <-. rewrite Hforce.
  match goal with
  | |- context [sass o true ?d ?a ?b ?c req s] =>
      destruct (sass_explicit o true d a b c req s)
        as [->|(sp & cp & sd & ->)]
  end.
  - split; [done|]. intros _. by split.
  - unfold after. cbn [fst snd]. split.
    + apply none_of_app. split.
      * unfold debug_line. by destruct (o_debug o).
      * by apply resolve_forced_no_stat.
    + intros Hresp.
      destruct (resolve_response_mode_disk o true (o_debug o) sp cp sd s Hresp)
        as [Hw Hev].
      split; [|exact Hw]. apply none_of_app. split; [|exact Hev].
      unfold debug_line. by destruct (o_debug o).
Qed.

Lemma escape_newlines_no_newline msg pre post :
  escape_newlines msg ≠ pre +:+ LF +:+ post.
Proof.
  revert pre. induction msg as [|c m IH]; intros pre Heq.
  - destruct pre; discriminate Heq.
  - cbn [escape_newlines] in Heq.
    destruct (Ascii.eqb_spec c "010"%char) as [->|Hc].
    + destruct pre as [|x1 pre]; [discriminate Heq|].
      rewrite append_cons in Heq. injection Heq as _ Heq.
      destruct pre as [|x2 pre]; [discriminate Heq|].
      rewrite append_cons in Heq. injection Heq as _ Heq.
      destruct pre as [|x3 pre]; [discriminate Heq|].
      rewrite append_cons in Heq. injection Heq as _ Heq.
      by apply (IH pre).
    + destruct pre as [|x1 pre].
      * injection Heq as Hc' _. congruence.
      * rewrite append_cons in Heq. injection Heq as _ Heq. by apply (IH pre).
Qed.

Lemma escape_newlines_id msg :
  (∀ pre post, msg ≠ pre +:+ LF +:+ post) → escape_newlines msg = msg.
Proof.
  induction msg as [|c m IH]; intros Hno; [done|].
  cbn [escape_newlines].
  destruct (Ascii.eqb_spec c "010"%char) as [->|Hc].
  - exfalso. by apply (Hno EmptyString m).
  - f_equal. apply IH. intros pre post ->.
    by apply (Hno (String c pre) post).
Qed.

(** X15. The text put into the [content] string of a diagnostic holds no
    newline: every newline of the message has become the CSS escape
    [\A ], and a message without newlines is left as it is. *)
Theorem escaped_message_is_one_line msg :
  (∀ pre post, escape_newlines msg ≠ pre +:+ LF +:+ post)
  ∧ ((∀ pre post, msg ≠ pre +:+ LF +:+ post) → escape_newlines msg = msg).
Proof.
  split; [apply escape_newlines_no_newline|apply escape_newlines_id].
Qed.

(** ** The handler, callback by callback *)

(** *** A request alone *)

Lemma settle_prepend evs o :
  settle (prepend evs o) = ((settle o).1, evs ++ (settle o).2).
Proof. destruct o; cbn; by rewrite ?app_assoc. Qed.

Lemma settle_finish p s : settle (finish p s) = p s.
Proof. unfold finish. cbn. by destruct (p s). Qed.

Lemma settle_and_then p k s :
  settle (and_then p k s) = (p ;; (λ s', settle (k s'))) s.
Proof. unfold and_then, seq. by rewrite settle_prepend. Qed.

Lemma settle_later k s : settle (later k s) = settle (k s).
Proof. unfold later. cbn. by destruct (settle (k s)). Qed.

Lemma seq_ext (p q q' : proc) s :
  (∀ s', q s' = q' s') → (p ;; q) s = (p ;; q') s.
Proof. intros Hq. unfold seq. by rewrite Hq. Qed.

Lemma seq_emit_ext e (q q' : proc) s :
  q s = q' s → (emit e ;; q) s = (emit e ;; q') s.
Proof. intros Hq. unfold seq, emit. cbn [fst snd]. by rewrite Hq. Qed.

Lemma seq_assoc (p q r : proc) s : ((p ;; q) ;; r) s = (p ;; (q ;; r)) s.
Proof. unfold seq. cbn. by rewrite app_assoc. Qed.

Lemma persist_alone cssPath text s :
  alone (persist_later cssPath text) s = persist cssPath text s.
Proof.
  unfold alone, persist_later, persist, mkdirp_done, writeFile.
  rewrite settle_later. cbv zeta.
  destruct (fs_mkdirp (world s) (dirname cssPath) 448) as [w1 [e|]];
    cbn [fst snd].
  - apply settle_finish.
  - rewrite settle_and_then. unfold seq, emit. cbn [fst snd].
    rewrite settle_later. cbn [world imports].
    destruct (fs_writeFile w1 cssPath text) as [w2 [e|]]; reflexivity.
Qed.

Lemma done_alone opts debug sassPath cssPath r s :
  alone (done_later opts debug sassPath cssPath r) s
  = done opts debug sassPath cssPath r s.
Proof.
  unfold alone. destruct r as [err|result]; cbn [done_later done].
  - apply settle_finish.
  - rewrite settle_and_then. rewrite !seq_assoc.
    repeat (apply seq_ext; intros ?).
    destruct (o_response opts); cbn [negb when].
    + unfold seq, emit, skip. reflexivity.
    + unfold seq, emit. cbn [fst snd].
      pose proof (persist_alone cssPath (css result)) as Hp.
      unfold alone in Hp. rewrite Hp. by rewrite <- !app_assoc.
Qed.

Lemma compile_alone opts debug sassPath cssPath sassDir s :
  alone (compile_later opts debug sassPath cssPath sassDir) s
  = compile opts debug sassPath cssPath sassDir s.
Proof.
  unfold alone, compile_later, compile. rewrite settle_and_then, seq_assoc.
  apply seq_ext. intros s1. unfold readFile. apply seq_emit_ext.
  rewrite settle_later.
  destruct (fs_readFile (world s1) sassPath) as [err|str].
  - apply settle_finish.
  - rewrite settle_and_then. apply seq_ext. intros s3.
    rewrite settle_later. unfold style_render. cbv zeta.
    rewrite settle_and_then. apply seq_emit_ext. apply done_alone.
Qed.

(** The callbacks of the stats: all but the last only count. *)
Lemma stat_callbacks_calls (fn : option (list string) → callback) time :
  ∀ completing changed s0, completing ≠ [] →
  ∃ t,
    stat_callbacks completing time (Z.of_nat (length completing)) changed fn
      s0
    = Suspended s0 [] t
    ∧ ∀ ss, length ss = length completing →
        then_calls ss t (λ s o,
          o = fn (Some (changed
                        ++ changed_files time
                             (zip completing (world <$> ss)))) s).
Proof.
  induction completing as [|p rest IH]; intros changed s0 Hne; [done|].
  cbn [stat_callbacks]. unfold later. eexists. split; [reflexivity|].
  intros ss Hlen. destruct ss as [|s ss]; [done|].
  cbn [length] in Hlen. injection Hlen as Hlen.
  cbn [then_calls resume].
  replace (Z.of_nat (length (p :: rest)) - 1) with (Z.of_nat (length rest))
    by (cbn [length]; lia).
  assert (Hch :
    match fs_stat (world s) p with
    | inl _ => changed ++ [p]
    | inr st => if mtime st >? time then changed ++ [p] else changed
    end
    = changed ++ (if import_changed (world s) time p then [p] else [])).
  { unfold import_changed. destruct (fs_stat (world s) p) as [e|st]; [done|].
    destruct (mtime st >? time); [done|by rewrite app_nil_r]. }
  rewrite Hch.
  destruct rest as [|q rest'].
  - destruct ss; [|done]. cbn. by rewrite app_nil_r.
  - destruct ss as [|s' ss']; [done|]. cbn [then_calls resume].
    assert (Hnz : (Z.of_nat (length (q :: rest')) =? 0) = false)
      by (apply Z.eqb_neq; cbn [length]; lia).
    rewrite Hnz.
    destruct (IH (changed
                  ++ (if import_changed (world s) time p then [p] else []))
                s) as (t' & Ht' & Hcalls); [done|].
    exists t'. split; [exact Ht'|].
    specialize (Hcalls (s' :: ss') Hlen).
    cbn [fmap list_fmap zip zip_with changed_files] in *.
    by rewrite <- app_assoc in Hcalls.
Qed.

Lemma then_calls_drain ss t last :
  then_calls ss t last → ∀ s, Forall (λ s', s' = s) ss →
  ∃ o, last s o ∧ drain t s = settle o.
Proof.
  revert t. induction ss as [|s1 ss IH]; intros t Hc s Hall; [done|].
  apply Forall_cons in Hall as [-> Hall].
  cbn [then_calls] in Hc. destruct ss as [|s2 ss].
  - exists (resume t s). split; [done|]. by destruct t.
  - destruct Hc as (t' & Ht' & Hc).
    destruct (IH t' Hc s Hall) as (o & Ho & Hd).
    exists o. split; [done|]. destruct t as [k]. cbn [drain resume] in *.
    rewrite Ht'. cbn [settle]. rewrite Hd. by destruct (settle o).
Qed.

Lemma changed_files_same time completing (w : W) n :
  n = length completing →
  changed_files time (zip completing (replicate n w))
  = List.filter (import_changed w time) completing.
Proof.
  intros ->. induction completing as [|p rest IH]; [done|].
  cbn [length replicate zip zip_with changed_files List.filter].
  rewrite IH. by destruct (import_changed w time p).
Qed.

Lemma checkImports_alone path time (fn : option (list string) → callback) s :
  alone (checkImports_later (λ l, l) path time fn) s
  = checkImports path time (λ changed, alone (fn changed)) s.
Proof.
  destruct (imports s !! path) as [nodes|] eqn:Hn.
  - rewrite (checkImports_run _ _ _ _ _ Hn).
    unfold alone, checkImports_later. rewrite Hn.
    destruct nodes as [|n rest]; [done|].
    change (length (n :: rest) =? 0)%nat with false. cbv iota.
    rewrite settle_and_then. unfold seq, after. cbn [fst snd].
    destruct (stat_callbacks_calls fn time (n :: rest) [] s)
      as (t & -> & Hcalls); [done|].
    specialize (Hcalls (replicate (length (n :: rest)) s)).
    rewrite length_replicate in Hcalls. specialize (Hcalls eq_refl).
    destruct (then_calls_drain _ _ _ Hcalls s) as (o & -> & Hd).
    { apply Forall_forall. intros x Hx. by apply elem_of_replicate in Hx as []. }
    cbn [settle]. rewrite Hd.
    rewrite fmap_replicate, changed_files_same by done.
    cbn [app]. by destruct (settle _).
  - unfold alone, checkImports_later, checkImports. by rewrite Hn.
Qed.

Lemma checked_alone opts debug sassPath cssPath sassDir changed s :
  alone (imports_checked_later opts debug sassPath cssPath sassDir changed) s
  = imports_checked opts debug sassPath cssPath sassDir changed s.
Proof.
  unfold alone.
  destruct changed as [[|p l]|]; cbn [imports_checked_later imports_checked];
    try apply settle_finish.
  rewrite settle_and_then. apply seq_ext. intros s'. apply compile_alone.
Qed.

Lemma checkImports_ext path time (fn fn' : option (list string) → proc) s :
  (∀ changed s', fn changed s' = fn' changed s') →
  checkImports path time fn s = checkImports path time fn' s.
Proof.
  intros Hfn. destruct (imports s !! path) as [nodes|] eqn:Hn.
  - rewrite !(checkImports_run _ _ _ _ _ Hn).
    destruct nodes; [apply Hfn|]. unfold after. by rewrite Hfn.
  - unfold checkImports. rewrite Hn. apply Hfn.
Qed.

Lemma resolve_alone opts force debug sassPath cssPath sassDir s :
  alone (resolve_later opts force debug sassPath cssPath sassDir (λ l, l)) s
  = resolve opts force debug sassPath cssPath sassDir s.
Proof.
  unfold resolve_later, resolve. unfold alone at 1.
  destruct force; [apply compile_alone|].
  destruct (imports s !! sassPath) as [nodes|]; [|apply compile_alone].
  rewrite settle_and_then. unfold stat at 1. apply seq_emit_ext.
  rewrite settle_later.
  destruct (fs_stat (world s) sassPath) as [err|sassStats];
    [apply settle_finish|].
  rewrite settle_and_then. unfold stat. apply seq_emit_ext.
  rewrite settle_later.
  destruct (fs_stat (world s) cssPath) as [err|cssStats].
  - destruct (String.eqb "ENOENT" (code err)); [|apply settle_finish].
    rewrite settle_and_then. apply seq_ext. intros s'. apply compile_alone.
  - destruct (mtime sassStats >? mtime cssStats).
    + rewrite settle_and_then. apply seq_ext. intros s'. apply compile_alone.
    + pose proof (checkImports_alone sassPath (mtime cssStats)
                    (imports_checked_later opts debug sassPath cssPath
                       sassDir) s) as Hc.
      unfold alone at 1 in Hc. rewrite Hc.
      apply checkImports_ext. intros changed s'. apply checked_alone.
Qed.

(** X18. A request alone is the request of the handler read from its
    first line to its last call: when the callbacks of a request run one
    after the other with nothing in between, and the stats of
    [checkImports] complete in the order of the array, the request does
    to the store, and emits, what [sass] does. *)
Theorem request_alone_runs_to_completion opts force debug src dest root req
    s :
  alone (sass_later opts force debug src dest root (λ l, l) req) s
  = sass opts force debug src dest root req s.
Proof.
  unfold sass_later, sass. unfold alone at 1.
  destruct (negb (String.eqb "GET" (method req))
            && negb (String.eqb "HEAD" (method req)));
    [apply settle_finish|].
  cbv zeta.
  match goal with
  | |- context [ends_with ".css" ?p] => destruct (ends_with ".css" p)
  end; [|apply settle_finish].
  rewrite settle_and_then. apply seq_ext. intros s'. apply resolve_alone.
Qed.

(** *** Requests that overlap *)

Lemma fold_success_quiet source evs acc :
  none_of is_render evs → fold_left (success_step source) evs acc = acc.
Proof.
  revert acc. induction evs as [|e evs IH]; intros acc Hq; [done|].
  unfold none_of in Hq. cbn [forallb] in Hq.
  apply andb_true_iff in Hq as [He Hq]. cbn [fold_left].
  rewrite IH by done. by destruct e.
Qed.

Lemma fold_success_from source evs acc :
  fold_left (success_step source) evs acc
  = match fold_left (success_step source) evs None with
    | Some files => Some files
    | None => acc
    end.
Proof.
  revert acc. induction evs as [|e evs IH]; intros acc; [done|].
  cbn [fold_left]. rewrite IH, (IH (success_step source None e)).
  destruct (fold_left (success_step source) evs None); [done|].
  destruct e; try done. cbn [success_step].
  destruct res; [done|]. by destruct (String.eqb source0 source).
Qed.

Lemma last_success_compiled source tr files :
  last_success source tr = Some files →
  ∃ ro r, Render source ro (inr r) ∈ tr ∧ files = includedFiles r.
Proof.
  unfold last_success.
  induction tr as [|e tr IH] using rev_ind; [done|].
  rewrite fold_left_app. cbn [fold_left]. intros Hl.
  assert (Hold : fold_left (success_step source) tr None = Some files →
                 ∃ ro r, Render source ro (inr r) ∈ tr ++ [e]
                         ∧ files = includedFiles r).
  { intros Ht. destruct (IH Ht) as (ro & r & Hin & Hf). exists ro, r.
    split; [|done]. apply elem_of_app. by left. }
  destruct e; cbn [success_step] in Hl; try by apply Hold.
  destruct res as [err|r]; [by apply Hold|].
  destruct (String.eqb_spec source0 source) as [->|Hne]; [|by apply Hold].
  injection Hl as <-. exists opts, r. split; [|done].
  apply elem_of_app. right. apply list_elem_of_here.
Qed.

Lemma quiet_skip : quiet skip.
Proof. by intros s. Qed.

Lemma quiet_emit e : is_render e = false → quiet (emit e).
Proof. intros He s. split; [done|]. unfold none_of. cbn. by rewrite He. Qed.

Lemma quiet_seq p q : quiet p → quiet q → quiet (p ;; q).
Proof.
  intros Hp Hq s. unfold seq. cbn [fst snd].
  destruct (Hp s) as [Hp1 Hp2]. destruct (Hq (p s).1) as [Hq1 Hq2].
  split; [congruence|]. apply none_of_app. by split.
Qed.

Lemma quiet_when b p : quiet p → quiet (when b p).
Proof. intros Hp. destruct b; [done|apply quiet_skip]. Qed.

Lemma quiet_log key val : quiet (log key val).
Proof. by apply quiet_emit. Qed.

Lemma quiet_next arg : quiet (next arg).
Proof. by apply quiet_emit. Qed.

Lemma quiet_error err : quiet (error err).
Proof. apply quiet_next. Qed.

Lemma quiet_logs (l : list string) :
  quiet (fold_right (λ path k, log "modified import %s" path ;; k) skip l).
Proof.
  induction l as [|p l IH]; [apply quiet_skip|].
  cbn [fold_right]. apply quiet_seq; [apply quiet_log|done].
Qed.

Create HintDb quiet.

#[local] Hint Resolve quiet_skip quiet_emit quiet_seq quiet_when quiet_log
  quiet_next quiet_error quiet_logs : quiet.

Lemma careful_imports s s1 o :
  imports s1 = imports s → careful_outcome s1 o → careful_outcome s o.
Proof.
  intros Hi [He Hp]. split; [|done]. intros source files Hl.
  rewrite <- Hi. by apply He.
Qed.

Lemma careful_prepend evs s o :
  none_of is_render evs → careful_outcome s o →
  careful_outcome s (prepend evs o).
Proof.
  intros Hq [He Hp]. unfold careful_outcome, entries_from_compiles.
  destruct o as [s' e|s' e t];
    cbn [prepend out_store out_events out_pending] in *;
    (split; [|done]); intros source files Hl;
    rewrite fold_left_app, (fold_success_quiet _ evs) by done; by apply He.
Qed.

Lemma careful_finish p s : quiet p → careful_outcome s (finish p s).
Proof.
  intros Hp. destruct (Hp s) as [Hi Hq]. split; [|done].
  intros source files Hl. cbn in *.
  rewrite fold_success_quiet by done. by rewrite <- Hi.
Qed.

Lemma careful_and_then p k s :
  quiet p → (∀ s', careful_outcome s' (k s')) →
  careful_outcome s (and_then p k s).
Proof.
  intros Hp Hk. destruct (Hp s) as [Hi Hq]. unfold and_then.
  apply careful_prepend; [done|].
  by apply (careful_imports s (p s).1).
Qed.

Lemma careful_later k s :
  (∀ s', careful_outcome s' (k s')) → careful_outcome s (later k s).
Proof.
  intros Hk. split; [by intros source files Hl|].
  intros t [= <-]. constructor; intros s'; apply Hk.
Qed.

Lemma careful_stop s : careful_outcome s (stop s).
Proof. split; [by intros source files Hl|done]. Qed.

Lemma persist_careful cssPath text s :
  careful_outcome s (persist_later cssPath text s).
Proof.
  apply careful_later. intros s1. cbv zeta.
  destruct (fs_mkdirp (world s1) (dirname cssPath) 448) as [w1 [e|]];
    cbn [fst snd].
  - apply (careful_imports s1 (Store (imports s1) w1)); [done|].
    apply careful_finish, quiet_error.
  - apply (careful_imports s1 (Store (imports s1) w1)); [done|].
    apply careful_and_then; [by apply quiet_emit|].
    intros s2. apply careful_later. intros s3.
    destruct (fs_writeFile (world s3) cssPath text) as [w3 [e|]];
      cbn [fst snd];
      apply (careful_imports s3 (Store (imports s3) w3)); try done.
    + apply careful_finish, quiet_error.
    + apply careful_stop.
Qed.

(** The callback of the compiler: the entry is written in the callback
    in which the result arrives, and only when it is a success. *)
Lemma render_careful opts debug sassPath cssPath ro r s :
  careful_outcome s
    (and_then (emit (Render sassPath ro r))
       (done_later opts debug sassPath cssPath r) s).
Proof.
  unfold and_then, emit. cbn [fst snd].
  destruct r as [err|result]; cbn [done_later].
  - assert (Hq : quiet (done opts debug sassPath cssPath (inl err))).
    { cbn [done]. unfold logError. auto 10 with quiet. }
    destruct (Hq s) as [Hi Hn]. split; [|done].
    intros source files Hl. cbn in *.
    rewrite fold_success_quiet by done. by rewrite <- Hi.
  - set (sync :=
           (when debug
              (log "render"
                 (if o_response opts then "<response>" else sassPath)) ;;
            (λ s0, (s0, [])) ;;
            when (negb (o_response opts))
              (emit (Mkdirp (dirname cssPath) 448)) ;;
            emit (WriteHead 200 css_headers) ;;
            emit (ResEnd (css result)))).
    assert (Hq : quiet sync).
    { unfold sync. apply quiet_seq; [auto with quiet|].
      apply quiet_seq; [by intros ?|]. auto 10 with quiet. }
    unfold and_then.
    match goal with
    | |- careful_outcome _ (prepend _ (prepend (?p s).2 ?o)) =>
        assert (Hp : (p s).1
                     = Store (<[sassPath := includedFiles result]> (imports s))
                         (world s)
                     ∧ (p s).2 = (sync s).2)
    end.
    { unfold sync, seq, when, imports_set, emit, skip, log.
      destruct debug, (o_response opts); cbn; done. }
    destruct Hp as [-> ->]. destruct (Hq s) as [_ Hn].
    set (s' := Store (<[sassPath := includedFiles result]> (imports s))
                 (world s)).
    assert (Hrest : ∃ rest,
      (if o_response opts then stop else persist_later cssPath (css result)) s'
      = rest
      ∧ out_store rest = s' ∧ out_events rest = []
      ∧ ∀ t, out_pending rest = Some t → careful t).
    { eexists. split; [reflexivity|]. destruct (o_response opts).
      - by repeat split.
      - repeat split. apply (persist_careful cssPath (css result) s'). }
    destruct Hrest as (rest & -> & Hs & He & Hpend).
    split.
    + intros source files Hl.
      destruct rest as [s0 e0|s0 e0 t0]; cbn in Hs, He, Hl |- *;
        subst s0 e0; rewrite app_nil_r;
        rewrite (fold_success_quiet _ (sync s).2) by done;
        cbn [success_step]; cbn [s' imports] in Hl;
        (destruct (String.eqb_spec sassPath source) as [->|Hne];
         [by rewrite lookup_insert_eq in Hl
         |by rewrite lookup_insert_ne in Hl]).
    + intros t Ht. apply Hpend. by destruct rest.
Qed.

Lemma compile_careful opts debug sassPath cssPath sassDir s :
  careful_outcome s (compile_later opts debug sassPath cssPath sassDir s).
Proof.
  apply careful_and_then; [auto 10 with quiet|].
  intros s0. apply careful_later. intros s1.
  destruct (fs_readFile (world s1) sassPath) as [err|str].
  - apply careful_finish, quiet_error.
  - split.
    + intros source files Hl. cbn in *.
      by apply lookup_delete_Some in Hl as [_ Hl].
    + intros t [= <-]. constructor; intros s2;
        apply (render_careful opts debug sassPath cssPath
                 (render_opts opts sassDir str)
                 (render (world s2) (render_opts opts sassDir str)) s2).
Qed.

Lemma stat_callbacks_careful (fn : option (list string) → callback) time :
  (∀ changed s, careful_outcome s (fn changed s)) →
  ∀ completing pending changed s,
    careful_outcome s (stat_callbacks completing time pending changed fn s).
Proof.
  intros Hfn. induction completing as [|p rest IH];
    intros pending changed s; [apply careful_stop|].
  cbn [stat_callbacks]. apply careful_later. intros s'. cbv zeta.
  destruct (pending - 1 =? 0); [apply Hfn|apply IH].
Qed.

Lemma resolve_careful opts force debug sassPath cssPath sassDir completion s :
  careful_outcome s
    (resolve_later opts force debug sassPath cssPath sassDir completion s).
Proof.
  assert (Hcompile := compile_careful opts debug sassPath cssPath sassDir).
  unfold resolve_later.
  destruct force; [apply Hcompile|].
  destruct (imports s !! sassPath); [|apply Hcompile].
  apply careful_and_then; [by apply quiet_emit|].
  intros s0. apply careful_later. intros s1.
  destruct (fs_stat (world s1) sassPath) as [err|sassStats];
    [apply careful_finish, quiet_error|].
  apply careful_and_then; [by apply quiet_emit|].
  intros s2. apply careful_later. intros s3.
  destruct (fs_stat (world s3) cssPath) as [err|cssStats].
  - destruct (String.eqb "ENOENT" (code err)).
    + apply careful_and_then; [auto with quiet|done].
    + apply careful_finish, quiet_next.
  - destruct (mtime sassStats >? mtime cssStats).
    + apply careful_and_then; [auto with quiet|done].
    + assert (Hchecked : ∀ changed s',
        careful_outcome s'
          (imports_checked_later opts debug sassPath cssPath sassDir
             changed s')).
      { intros [[|p ps]|] s'; cbn [imports_checked_later];
          try apply careful_finish, quiet_next.
        apply careful_and_then; [auto with quiet|done]. }
      unfold checkImports_later.
      destruct (imports s3 !! sassPath) as [nodes|]; [|apply Hchecked].
      destruct (length nodes =? 0)%nat; [apply Hchecked|].
      apply careful_and_then.
      * intros s'. split; [done|]. cbn [snd].
        unfold none_of. by induction nodes.
      * intros s'. by apply stat_callbacks_careful.
Qed.

Lemma sass_careful opts force debug src dest root completion req s :
  careful_outcome s
    (sass_later opts force debug src dest root completion req s).
Proof.
  unfold sass_later.
  destruct (negb (String.eqb "GET" (method req))
            && negb (String.eqb "HEAD" (method req)));
    [apply careful_finish, quiet_next|].
  cbv zeta.
  match goal with
  | |- context [ends_with ".css" ?p] => destruct (ends_with ".css" p)
  end; [|apply careful_finish, quiet_next].
  apply careful_and_then; [auto 10 with quiet|].
  intros s'. apply resolve_careful.
Qed.

Lemma middleware_careful arg handler completion req s :
  middleware_later arg = Some handler →
  careful_outcome s (handler completion req s).
Proof.
  unfold middleware_later. intros Hm.
  destruct (o_src _) as [src|]; [|done].
  destruct (truthy (Some src)); [|done].
  injection Hm as <-. apply sass_careful.
Qed.

Lemma absorb_sound s tr others o :
  (∀ source files,
     imports s !! source = Some files →
     last_success source tr = Some files) →
  Forall careful others →
  careful_outcome s o →
  ledger_sound (absorb tr others o).
Proof.
  intros Hinv Hothers [He Hp].
  assert (Hnew : ∀ source files,
    imports (out_store o) !! source = Some files →
    last_success source (tr ++ out_events o) = Some files).
  { intros source files Hl. specialize (He source files Hl).
    unfold last_success. rewrite fold_left_app.
    rewrite fold_success_from in He. rewrite fold_success_from.
    destruct (fold_left (success_step source) (out_events o) None);
      [done|].
    by apply Hinv. }
  destruct o as [s' evs|s' evs t]; cbn [absorb out_store out_events] in *.
  - by split.
  - split; [done|]. apply Forall_app. split; [done|].
    apply Forall_singleton. by apply Hp.
Qed.

Lemma occur_sound pr a : ledger_sound pr → ledger_sound (occur pr a).
Proof.
  intros [Hinv Hpend]. destruct a as [arg req completion|i|w]; cbn [occur].
  - destruct (middleware_later arg) as [handler|] eqn:Hm; [|by split].
    apply (absorb_sound (p_store pr)); [done|done|].
    by apply (middleware_careful arg).
  - destruct (p_pending pr !! i) as [t|] eqn:Ht; [|by split].
    apply (absorb_sound (p_store pr)); [done| |].
    + rewrite Forall_forall in Hpend. apply Forall_forall.
      intros x Hx. apply Hpend.
      by apply list_elem_of_delete_inv in Hx.
    + assert (Hc : careful t).
      { rewrite Forall_forall in Hpend. apply Hpend.
        by apply list_elem_of_lookup_2 in Ht. }
      destruct Hc as [k He Hk]. cbn [resume]. split; [apply He|apply Hk].
  - by split.
Qed.

Lemma interleaving_sound w0 occs : ledger_sound (interleaving w0 occs).
Proof.
  unfold interleaving.
  assert (Hgen : ∀ pr, ledger_sound pr → ledger_sound (fold_left occur occs pr)).
  { induction occs as [|a occs IH]; intros pr Hs; [done|].
    cbn [fold_left]. by apply IH, occur_sound. }
  apply Hgen. split; [|done]. intros source files Hl. cbn in Hl.
  by rewrite lookup_empty in Hl.
Qed.

(** *** The claims on the ledger *)

(** C8, as amended. At every point of the life of a process, whatever
    requests have arrived, however their callbacks have interleaved and
    whatever has happened to the disk: a source has an entry in [imports]
    only if the compiler has been invoked for it with success since the
    start.  The converse does not hold.  And a change of the disk alone
    leaves [imports] as it is. *)
Theorem ledger_entry_implies_compiled w0 occs source :
  (is_Some (imports (p_store (interleaving w0 occs)) !! source) →
   compiled_once source (p_trace (interleaving w0 occs)))
  ∧ ∀ w, imports (p_store (occur (interleaving w0 occs) (DiskChanges w)))
         = imports (p_store (interleaving w0 occs)).
Proof.
  split; [|done]. intros [files Hl].
  destruct (interleaving_sound w0 occs) as [Hinv _].
  destruct (last_success_compiled source _ files (Hinv source files Hl))
    as (ro & r & Hin & _).
  by exists ro, r.
Qed.


(** C5, as amended. [compile()] starts the read and returns.  When the
    read fails its callback hands the error on: the entry stays and the
    compiler is not invoked.  When the read succeeds its callback deletes
    the entry of the source and starts the compiler, so that whatever runs
    before the compiler is done finds no entry; the callback of the
    compiler, on success, overwrites that single key with the list of
    included files returned, in whatever state [imports] then is.  For a
    request alone this makes the entry exactly the new list, nothing of
    the old one being kept; hence a file [f] outside the new list is not
    stat-ed by [checkImports] for this source, whose verdict is the same
    before and after a change of [f]; and, [f] not being the source or the
    output itself, [resolve] compiles after the change exactly when it
    would have compiled without it. *)
Theorem compile_deletes_then_replaces opts force debug sassPath cssPath
    sassDir s str :
  fs_readFile (world s) sassPath = inr str →
  let compile_ := compile opts debug sassPath cssPath sassDir in
  let resolve_ := resolve opts force debug sassPath cssPath sassDir in
  (∃ reading,
     compile_later opts debug sassPath cssPath sassDir s
     = Suspended s (debug_line debug "read" cssPath ++ [FsReadFile sassPath])
         reading
     ∧ (∀ s1 err, fs_readFile (world s1) sassPath = inl err →
          resume reading s1 = Finished s1 [error_event err])
     ∧ ∀ s1 str1, fs_readFile (world s1) sassPath = inr str1 →
         let ro := render_opts opts sassDir str1 in
         ∃ rendering,
           resume reading s1
           = Suspended (Store (delete sassPath (imports s1)) (world s1)) []
               rendering
           ∧ delete sassPath (imports s1) !! sassPath = None
           ∧ ∀ s2, ∃ rest,
               out_events (resume rendering s2)
               = Render sassPath ro (render (world s2) ro) :: rest
               ∧ none_of is_render rest
               ∧ ∀ r, render (world s2) ro = inr r →
                   imports (out_store (resume rendering s2))
                   = <[sassPath := includedFiles r]> (imports s2))
  ∧ ∀ r, render (world s) (render_opts opts sassDir str) = inr r →
      imports (compile_ s).1 = <[sassPath := includedFiles r]> (imports s)
      ∧ imports (compile_ s).1 !! sassPath = Some (includedFiles r)
      ∧ ∀ f w1 w2,
          f ∉ includedFiles r →
          (∀ p, p ≠ f → fs_stat w1 p = fs_stat w2 p) →
          let s1 := Store (imports (compile_ s).1) w1 in
          let s2 := Store (imports (compile_ s).1) w2 in
          (∀ time fn, ∃ verdict,
             checkImports sassPath time fn s1
             = after (map FsStat (includedFiles r)) (fn verdict) s1
             ∧ checkImports sassPath time fn s2
               = after (map FsStat (includedFiles r)) (fn verdict) s2)
          ∧ (FsStat f ∉ map FsStat (includedFiles r))
          ∧ (f ≠ sassPath → f ≠ cssPath →
             (recompiles sassPath (resolve_ s1).2
              ↔ recompiles sassPath (resolve_ s2).2)).
Proof.
  intros Hr compile_ resolve_. split.
  - eexists. split; [|split].
    + unfold compile_later, and_then, later, seq, when, emit, skip, log,
        debug_line.
      destruct debug; cbn; reflexivity.
    + intros s1 err He. cbn [resume]. by rewrite He.
    + intros s1 str1 Hr1 ro. cbn [resume]. rewrite Hr1.
      eexists. split; [reflexivity|]. split; [apply lookup_delete_eq|].
      intros s2. cbn [resume]. fold ro. unfold and_then, emit.
      cbn [fst snd].
      destruct (render (world s2) ro) as [err|r] eqn:Hren.
      * eexists. split; [reflexivity|]. split; [|done].
        cbn [done_later done]. unfold finish, seq, when, emit, skip, logError, log.
        by destruct debug, (o_error opts).
      * cbn [done_later].
        unfold and_then, seq, when, imports_set, emit, skip, log,
          persist_later, later, stop.
        destruct debug, (o_response opts); cbn;
          (eexists; split; [reflexivity|]; split; [done|];
           by intros r' [= <-]).
  - destruct (compile_replaces_entry opts force debug sassPath cssPath
                sassDir s str Hr) as (_ & _ & Hok).
    exact Hok.
Qed.

Lemma filter_bool_Permutation {A} (f : A → bool) l l' :
  l ≡ₚ l' → List.filter f l ≡ₚ List.filter f l'.
Proof.
  induction 1 as [|x l l' Hp IH|x y l|l l' l'' Hp1 IH1 Hp2 IH2];
    cbn [List.filter].
  - done.
  - destruct (f x); [by constructor|done].
  - destruct (f x), (f y); try done; try (by constructor).
  - by etrans.
Qed.

(** X8. [checkImports] reads the entry of [path].  Without an entry, or
    with an empty one, it calls [fn] at once, without argument, and stats
    nothing.  Otherwise it starts a stat for every recorded file, in the
    order of the record, and returns; the callbacks of the stats run
    later, in the order in which the stats complete and with whatever
    happens in between.  All but the last only count; the last one calls
    [fn], once, with the files whose stat failed or showed a time strictly
    newer than [time] on the disk as it was when their callback ran, in
    the order of completion.  When the disk is the same for all of them,
    these are the recorded files that changed, in some order. *)
Theorem checkImports_calls_back_after_last_stat completion path time
    (fn : option (list string) → callback) s :
  (imports s !! path = None ∨ imports s !! path = Some [] →
   checkImports_later completion path time fn s = fn None s)
  ∧ ∀ nodes,
      imports s !! path = Some nodes → nodes ≠ [] →
      length (completion nodes) = length nodes →
      ∃ t,
        checkImports_later completion path time fn s
        = Suspended s (map FsStat nodes) t
        ∧ (∀ ss, length ss = length nodes →
             then_calls ss t (λ s' o,
               o = fn (Some (changed_files time
                               (zip (completion nodes) (world <$> ss))))
                     s'))
        ∧ ∀ w, completion nodes ≡ₚ nodes →
            changed_files time
              (zip (completion nodes) (replicate (length nodes) w))
            ≡ₚ List.filter (import_changed w time) nodes.
Proof.
  split.
  - intros [Hn|Hn]; unfold checkImports_later; by rewrite Hn.
  - intros nodes Hn Hne Hlen. unfold checkImports_later. rewrite Hn.
    destruct nodes as [|n rest]; [done|].
    change (length (n :: rest) =? 0)%nat with false. cbv iota.
    assert (Hc : completion (n :: rest) ≠ []).
    { intros Hnil. by rewrite Hnil in Hlen. }
    unfold and_then. cbn [fst snd]. rewrite <- Hlen.
    destruct (stat_callbacks_calls fn time (completion (n :: rest)) [] s Hc)
      as (t & -> & Hcalls).
    exists t. cbn [prepend]. rewrite app_nil_r. split; [done|].
    split; [exact Hcalls|].
    intros w Hperm. rewrite changed_files_same by done.
    by apply filter_bool_Permutation.
Qed.

Lemma sass_paths opts force debug src dest root req s :
  sass opts force debug src dest root req s = (s, [Next NextVoid])
  ∨ ∃ sassPath cssPath pre,
      all_of is_silent pre
      ∧ sass opts force debug src dest root req s
        = after pre
            (resolve opts force debug sassPath cssPath (dirname sassPath)) s.
Proof.
  unfold sass.
  destruct (negb (String.eqb "GET" (method req))
            && negb (String.eqb "HEAD" (method req))); [by left|].
  match goal with
  | |- context [ends_with ".css" ?p] => destruct (ends_with ".css" p)
  end; [|by left].
  right.
  match goal with
  | |- context [resolve opts force debug ?sp ?cp ?sd] =>
      exists sp, cp,
        (debug_line debug "source" sp
         ++ debug_line debug "dest"
              (if o_response opts then "<response>" else cp))
  end.
  unfold debug_line. destruct debug.
  - split; reflexivity.
  - split; [done|]. unfold when. by rewrite seq_skip, after_nil.
Qed.

Lemma silent_no_render_of pre :
  all_of is_silent pre → omap render_of pre = [].
Proof.
  induction pre as [|e pre IH]; [done|]. unfold all_of. cbn [forallb].
  intros [He Hp]%andb_true_iff. cbn [omap list_omap].
  destruct e; try done; cbn [render_of]; by apply IH.
Qed.

(** X13. A request invokes the compiler at most once; the source it
    compiles is a file that it has read, the text given to the compiler
    is what it read there, and the first of the include paths is the
    directory of that file. *)
Theorem sass_compiles_what_it_read opts force debug src dest root req s :
  omap render_of (sass opts force debug src dest root req s).2 = []
  ∨ ∃ sassPath ro,
      omap render_of (sass opts force debug src dest root req s).2
      = [(sassPath, ro, render (world s) ro)]
      ∧ FsReadFile sassPath ∈ (sass opts force debug src dest root req s).2
      ∧ fs_readFile (world s) sassPath = inr (data ro)
      ∧ head (includePaths ro) = Some (dirname sassPath).
Proof.
  destruct (sass_paths opts force debug src dest root req s)
    as [->|(sp & cp & pre & Hs & ->)]; [by left|].
  unfold after. cbn [snd]. rewrite omap_app, silent_no_render_of by done.
  cbn [app].
  destruct (resolve_renders_once opts force debug sp cp (dirname sp) s)
    as [Hnone|(str & Hr & Hone)]; [by left|].
  right. exists sp, (render_opts opts (dirname sp) str).
  split; [exact Hone|]. split; [|by split].
  apply elem_of_app. right.
  assert (Hin : (sp, render_opts opts (dirname sp) str,
                 render (world s) (render_opts opts (dirname sp) str))
                ∈ omap render_of
                    (resolve opts force debug sp cp (dirname sp) s).2)
    by (rewrite Hone; apply list_elem_of_here).
  apply resolve_recompiles_iff.
  destruct (needs_compile force sp cp s) eqn:Hneed; [done|].
  pose proof (resolve_cases opts force debug sp cp (dirname sp) s) as Hc.
  rewrite Hneed in Hc. destruct Hc as [_ Hsilent].
  by rewrite (silent_no_render_of _ Hsilent) in Hone.
Qed.

(** *** The diagnostic as a style sheet *)

Lemma string_take_append a b : string_take (String.length a) (a +:+ b) = a.
Proof.
  induction a as [|c a IH]; [by destruct b|].
  rewrite append_cons. cbn [String.length string_take]. by rewrite IH.
Qed.

Lemma string_length_append a b :
  String.length (a +:+ b) = (String.length a + String.length b)%nat.
Proof.
  induction a as [|c a IH]; [done|].
  rewrite append_cons. cbn [String.length]. by rewrite IH.
Qed.

Lemma append_cancel_r a b c : a +:+ c = b +:+ c → a = b.
Proof.
  revert b. induction a as [|x a IH]; intros [|y b] Heq; [done| | |].
  - apply (f_equal String.length) in Heq.
    rewrite append_cons in Heq. cbn [String.length] in Heq.
    rewrite !string_length_append in Heq. cbn [String.length] in Heq. lia.
  - apply (f_equal String.length) in Heq.
    rewrite append_cons in Heq. cbn [String.length] in Heq.
    rewrite !string_length_append in Heq. cbn [String.length] in Heq. lia.
  - rewrite !append_cons in Heq. injection Heq as -> Heq.
    f_equal. by apply IH.
Qed.

Lemma string_drop_plus a b n :
  string_drop (String.length a + n) (a +:+ b) = string_drop n b.
Proof.
  induction a as [|c a IH]; [done|].
  rewrite append_cons. cbn [String.length Nat.add string_drop]. apply IH.
Qed.

Lemma prefix_comment_end c m tail :
  String.prefix "*/" (String c m) = false →
  String.prefix "*/" (String c (m +:+ LF +:+ tail)) = false.
Proof.
  cbn [String.prefix]. destruct (ascii_dec "*" c) as [Heq|Hne]; [|done].
  destruct m as [|d m].
  - intros _. reflexivity.
  - rewrite append_cons. cbn [String.prefix].
    destruct (ascii_dec "/" d); [|done]. intros Hf. by destruct m.
Qed.

(** The comment that [done] opens is closed where [done] closes it when
    the message holds no [*/]. *)
Lemma indexOf_comment_end m tail :
  indexOf "*/" m = None →
  indexOf "*/" (m +:+ LF +:+ "*/" +:+ tail) = Some (S (String.length m)).
Proof.
  induction m as [|c m IH]; intros Hno.
  - by destruct tail.
  - cbn [indexOf] in Hno.
    destruct (String.prefix "*/" (String c m)) eqn:Hp; [done|].
    destruct (indexOf "*/" m) eqn:Hm; [done|].
    rewrite append_cons. cbn [indexOf].
    rewrite (prefix_comment_end c m _ Hp), IH by done. reflexivity.
Qed.

Lemma escape_newlines_plain m :
  string_forall (λ c, negb (left_as_it_is c)) m = true →
  string_forall (λ c, negb (ends_css_string c)) (escape_newlines m) = true.
Proof.
  induction m as [|c m IH]; [done|]. cbn [string_forall escape_newlines].
  intros [Hc Hm]%andb_true_iff.
  destruct (Ascii.eqb_spec c "010"%char) as [->|Hne].
  - cbn [string_forall]. by rewrite IH.
  - cbn [string_forall]. rewrite IH by done.
    unfold left_as_it_is in Hc. unfold ends_css_string.
    apply Ascii.eqb_neq in Hne. rewrite Hne.
    destruct (Ascii.eqb c "034"), (Ascii.eqb c "013"), (Ascii.eqb c "012");
      done.
Qed.

Lemma error_data_inert sassPath err :
  let msg := error_message sassPath err in
  indexOf "*/" msg = None →
  string_forall (λ c, negb (left_as_it_is c)) msg = true →
  inert_diagnostic msg (error_data sassPath err).
Proof.
  intros msg Hno Hplain. unfold error_data. fold msg.
  unfold inert_diagnostic, comment_of, after_comment.
  assert (Hstart : ∀ x, starts_with "/*" ("/*" +:+ x) = true)
    by (intros x; apply starts_with_append).
  rewrite Hstart.
  assert (Hdrop : ∀ x, string_drop 2 ("/*" +:+ x) = x)
    by (intros x; apply (string_drop_append "/*")).
  rewrite Hdrop. cbv zeta.
  assert (Hidx : ∀ tail,
    indexOf "*/" (LF +:+ msg +:+ LF +:+ "*/" +:+ tail)
    = Some (String.length (LF +:+ msg +:+ LF))).
  { intros tail. unfold LF at 1. rewrite append_cons.
    change (EmptyString +:+ ?x) with x. cbn [indexOf String.prefix].
    destruct (ascii_dec "*" "010") as [Hbad|_]; [discriminate Hbad|].
    rewrite (indexOf_comment_end msg _ Hno).
    cbn [fmap option_fmap option_map].
    rewrite !string_length_append. cbn [LF String.length]. f_equal. lia. }
  rewrite Hidx. cbn [fmap option_fmap option_map].
  assert (Hre : ∀ rest,
    LF +:+ msg +:+ LF +:+ rest = (LF +:+ msg +:+ LF) +:+ rest)
    by (intros rest; by rewrite !string_app_assoc).
  rewrite Hre. split.
  - f_equal. apply string_take_append.
  - exists (escape_newlines msg). split.
    + f_equal. rewrite string_drop_plus.
      apply (string_drop_append "*/").
    + by apply escape_newlines_plain.
Qed.

(** C7, as amended. When the compiler returns an error, the request is
    answered, not handed on: [next] is not called, and the response is one
    head with status 200 followed by one body.  The body is a CSS comment
    holding the compiler's message followed by
    [ in <source path>:<line>:<column>], and a [body:before] rule whose
    [content] string repeats that text with its line feeds escaped.
    Nothing else of the text is escaped: the body is inert, the comment
    ending where [done] ends it and nothing ending the string before its
    closing quote, when the text holds no [*/], no double quote, no
    carriage return and no form feed. *)
Theorem compile_error_is_answered_with_diagnostic opts debug sassPath cssPath
    sassDir s str err :
  fs_readFile (world s) sassPath = inr str →
  render (world s) (render_opts opts sassDir str) = inl err →
  let compile_ := compile opts debug sassPath cssPath sassDir in
  let location :=
    sassPath +:+ ":" +:+ pretty (line err) +:+ ":" +:+ pretty (column err) in
  let text := error_data sassPath err in
  (∃ pre, (compile_ s).2 = pre ++ [WriteHead 200 css_headers; ResEnd text]
          ∧ none_of is_response pre)
  ∧ none_of is_next (compile_ s).2
  ∧ text
    = "/*" +:+ LF +:+ (message err +:+ " in " +:+ location) +:+ LF +:+ "*/"
      +:+ LF
      +:+ "body:before { white-space: pre; font-family: monospace; content: "
      +:+ DQUOTE +:+ escape_newlines (message err +:+ " in " +:+ location)
      +:+ DQUOTE
  ∧ substring_of (message err) text
  ∧ substring_of location text
  ∧ (indexOf "*/" (message err +:+ " in " +:+ location) = None →
     string_forall (λ c, negb (left_as_it_is c))
       (message err +:+ " in " +:+ location) = true →
     inert_diagnostic (message err +:+ " in " +:+ location) text).
Proof.
  intros Hr Hko compile_ location text.
  destruct (compile_error_response opts debug sassPath cssPath sassDir s str
              err Hr Hko) as (Hresp & Hnext & Htext & Hmsg & Hloc).
  repeat (split; [done|]).
  apply error_data_inert.
Qed.

End middleware.

(** ** The handler at work on the in-memory site *)

Import Mem.


Local Abbreviation resolve_a opts force debug :=
  (resolve toy_render toy_dirname opts force debug a_scss a_css "/srv/sass").
Local Abbreviation compile_a opts debug :=
  (compile toy_render toy_dirname opts debug a_scss a_css "/srv/sass").
Local Abbreviation done_a opts debug :=
  (done toy_dirname opts debug a_scss a_css).

Lemma b_fresh_on_site : ∀ p, p ∈ [b_scss] → import_fresh site 20 p.
Proof.
  intros p Hp. apply list_elem_of_singleton in Hp as ->.
  exists (Stats 5). split; [reflexivity|]. cbn. lia.
Qed.

(** C3 on the site: nothing is known about [a.scss], so it is compiled
    although [a.css] exists and is newer. *)
Lemma resolve_without_entry_compiles_on_site :
  resolve_a site_options false false (Store ∅ site)
  = compile_a site_options false (Store ∅ site)
  ∧ none_of is_stat (resolve_a site_options false false (Store ∅ site)).2
  ∧ recompiles a_scss (resolve_a site_options false false (Store ∅ site)).2.
Proof.
  apply (resolve_without_entry_compiles toy_render toy_dirname site_options
           false false a_scss a_css "/srv/sass" (Store ∅ site)).
  reflexivity.
Defined.

(** C1 as stated fails under the force flag: there is an entry, the
    source is older than the output and the recorded import is unchanged,
    yet the forced [resolve] stats nothing and compiles. *)
Lemma forced_resolve_skips_import_check :
  imports (Store a_known site) !! a_scss = Some [b_scss]
  ∧ fs_stat site a_scss = inr (Stats 10)
  ∧ fs_stat site a_css = inr (Stats 20)
  ∧ mtime (Stats 10) ≤ mtime (Stats 20)
  ∧ (∀ p, p ∈ [b_scss] → import_fresh site 20 p)
  ∧ (resolve_a site_options true false (Store a_known site)).2
    = [FsReadFile a_scss;
       Render a_scss (a_render_options a_text) (inr a_result);
       Mkdirp "/srv/css" 448; WriteHead 200 css_headers; ResEnd a_text;
       FsWriteFile a_css a_text]
  ∧ recompiles a_scss (resolve_a site_options true false (Store a_known site)).2
  ∧ none_of is_stat (resolve_a site_options true false (Store a_known site)).2.
Proof.
  split; [reflexivity|]. split; [reflexivity|]. split; [reflexivity|].
  split; [cbn; lia|]. split; [apply b_fresh_on_site|].
  assert (Hev : (resolve_a site_options true false (Store a_known site)).2
    = [FsReadFile a_scss;
       Render a_scss (a_render_options a_text) (inr a_result);
       Mkdirp "/srv/css" 448; WriteHead 200 css_headers; ResEnd a_text;
       FsWriteFile a_css a_text]) by (vm_compute; reflexivity).
  split; [exact Hev|]. rewrite Hev.
  split; [apply list_elem_of_here|reflexivity].
Qed.

(** C1 as amended, on the site. *)
Lemma resolve_checks_recorded_imports_on_site :
  (∃ rest,
     (resolve_a site_options false false (Store a_known site)).2
     = two_stats a_scss a_css ++ map FsStat [b_scss] ++ rest
     ∧ none_of is_stat rest)
  ∧ ¬ recompiles a_scss
        (resolve_a site_options false false (Store a_known site)).2.
Proof.
  destruct (resolve_checks_recorded_imports toy_render toy_dirname
              site_options false false a_scss a_css "/srv/sass"
              (Store a_known site) [b_scss] (Stats 10) (Stats 20))
    as (Hstats & _ & Hfresh).
  - reflexivity.
  - reflexivity.
  - reflexivity.
  - reflexivity.
  - cbn. lia.
  - split; [exact Hstats|]. apply Hfresh, b_fresh_on_site.
Defined.

(** C2 on the site: a source edited at 40 against an output of 30 is
    compiled; with both at 20 the unforced [resolve] goes on to the import
    check. *)
Lemma resolve_compares_mtimes_strictly_on_site :
  recompiles a_scss
    (resolve_a site_options false false (Store a_known site_broken)).2
  ∧ resolve_a site_options false false (Store a_known site_tie)
    = after (two_stats a_scss a_css)
        (checkImports a_scss 20
           (imports_checked toy_render toy_dirname site_options false
              a_scss a_css "/srv/sass"))
        (Store a_known site_tie).
Proof.
  split.
  - apply (resolve_compares_mtimes_strictly toy_render toy_dirname
             site_options false false a_scss a_css "/srv/sass"
             (Store a_known site_broken) [b_scss] (Stats 40) (Stats 30));
      [reflexivity|reflexivity|reflexivity|cbn; lia].
  - apply (resolve_compares_mtimes_strictly toy_render toy_dirname
             site_options false false a_scss a_css "/srv/sass"
             (Store a_known site_tie) [b_scss] (Stats 20) (Stats 20));
      reflexivity.
Defined.

(** C4 as stated fails: on a cache hit the handler reads nothing, least of
    all [a.css], and writes neither head nor body; all it does is stat the
    three files and call [next()]. *)
Lemma cache_hit_is_not_served_by_resolve :
  imports (Store a_known site) !! a_scss = Some [b_scss]
  ∧ fs_stat site a_scss = inr (Stats 10)
  ∧ fs_stat site a_css = inr (Stats 20)
  ∧ mtime (Stats 10) ≤ mtime (Stats 20)
  ∧ (∀ p, p ∈ [b_scss] → import_fresh site 20 p)
  ∧ fs_readFile site a_css = inr "old"
  ∧ resolve_a site_options false false (Store a_known site)
    = (Store a_known site,
       [FsStat a_scss; FsStat a_css; FsStat b_scss; Next NextVoid])
  ∧ (ResEnd "old"
     ∉ (resolve_a site_options false false (Store a_known site)).2)
  ∧ (FsReadFile a_css
     ∉ (resolve_a site_options false false (Store a_known site)).2).
Proof.
  split; [reflexivity|]. split; [reflexivity|]. split; [reflexivity|].
  split; [cbn; lia|]. split; [apply b_fresh_on_site|].
  split; [reflexivity|].
  assert (Hrun : resolve_a site_options false false (Store a_known site)
    = (Store a_known site,
       [FsStat a_scss; FsStat a_css; FsStat b_scss; Next NextVoid]))
    by (vm_compute; reflexivity).
  split; [exact Hrun|]. rewrite Hrun. cbn [snd].
  split; intros Hin;
    repeat (apply elem_of_cons in Hin as [Hin|Hin]; [discriminate Hin|]);
    by apply elem_of_nil in Hin.
Qed.

(** C4 as amended, on the site. *)
Lemma resolve_cache_hit_calls_next_on_site :
  (resolve_a site_options false false (Store a_known site)).1
  = Store a_known site
  ∧ (∃ looked,
       all_of is_stat looked
       ∧ (resolve_a site_options false false (Store a_known site)).2
         = looked ++ [Next NextVoid])
  ∧ none_of is_read (resolve_a site_options false false (Store a_known site)).2
  ∧ none_of is_response
      (resolve_a site_options false false (Store a_known site)).2
  ∧ none_of is_render
      (resolve_a site_options false false (Store a_known site)).2.
Proof.
  apply (resolve_cache_hit_calls_next toy_render toy_dirname site_options
           false false a_scss a_css "/srv/sass" (Store a_known site)
           [b_scss] (Stats 10) (Stats 20)).
  - reflexivity.
  - reflexivity.
  - reflexivity.
  - reflexivity.
  - cbn. lia.
  - apply b_fresh_on_site.
Defined.

Lemma touched_agrees_elsewhere :
  ∀ p, p ≠ old_scss → fs_stat site p = fs_stat site_touched p.
Proof.
  intros p Hp. cbn [fs_stat disk_fs]. unfold access, site_touched.
  cbn [files]. by rewrite lookup_insert_ne.
Qed.

(** C6 on the site: the bad edit fails to compile; the entry is gone and
    [a.css] still holds the last good output. *)
Lemma compile_error_keeps_ledger_clear_and_output_on_site :
  imports (compile_a site_options false (Store a_known site_broken)).1
  = delete a_scss a_known
  ∧ imports (compile_a site_options false (Store a_known site_broken)).1
    !! a_scss = None
  ∧ none_of is_write
      (compile_a site_options false (Store a_known site_broken)).2
  ∧ world (compile_a site_options false (Store a_known site_broken)).1
    = site_broken
  ∧ fs_readFile
      (world (compile_a site_options false (Store a_known site_broken)).1)
      a_css
    = fs_readFile site_broken a_css.
Proof.
  apply (compile_error_keeps_ledger_clear_and_output toy_render toy_dirname
           site_options false a_scss a_css "/srv/sass"
           (Store a_known site_broken) a_text_broken a_error).
  - reflexivity.
  - reflexivity.
Defined.

(** C9 as stated fails: the output directory cannot be written; in debug
    mode the handler logs reading and rendering, answers 200, and then
    calls [next] with the error of [mkdirp]; the failure is not logged. *)
Lemma persist_failure_is_passed_to_next :
  (resolve_a site_options_debug false true (Store ∅ site_readonly)).2
  = [ConsoleError (log_line "read" a_css);
     FsReadFile a_scss;
     Render a_scss (a_render_options a_text) (inr a_result);
     ConsoleError (log_line "render" a_scss);
     Mkdirp "/srv/css" 448;
     WriteHead 200 css_headers;
     ResEnd a_text;
     Next (NextErr (FsError "EACCES"))]
  ∧ (resolve_a site_options false false (Store ∅ site_readonly)).2
    = [FsReadFile a_scss;
       Render a_scss (a_render_options a_text) (inr a_result);
       Mkdirp "/srv/css" 448;
       WriteHead 200 css_headers;
       ResEnd a_text;
       Next (NextErr (FsError "EACCES"))]
  ∧ none_of is_log
      (resolve_a site_options false false (Store ∅ site_readonly)).2.
Proof.
  split; [vm_compute; reflexivity|].
  split; vm_compute; reflexivity.
Qed.

(** C9 as amended, on the read-only site. *)
Lemma done_answers_before_persisting_on_site :
  (done_a site_options false (inr a_result) (Store ∅ site_readonly)).2
  = [Mkdirp "/srv/css" 448; WriteHead 200 css_headers; ResEnd a_text;
     Next (NextErr (FsError "EACCES"))]
  ∧ none_of is_log
      (persist_events toy_dirname a_css site_readonly (css a_result)).
Proof.
  destruct (done_answers_before_persisting toy_dirname site_options false
              a_scss a_css (Store ∅ site_readonly) a_result)
    as (Hev & _ & Hlog & _ & Hmk & _); [reflexivity|].
  split; [|exact Hlog].
  rewrite Hev. cbv zeta in Hmk.
  rewrite (Hmk (FsError "EACCES")); reflexivity.
Defined.

(** ** The scenarios of the test suite, on the in-memory site *)

Example escape_newlines_two_lines :
  escape_newlines ("a" +:+ LF +:+ "b") = "a\A b".
Proof. reflexivity. Qed.

(** [middleware.should.throw(/requires "src"/)] *)
Example middleware_requires_src :
  middleware toy_render toy_pathname toy_join toy_dirname Undefined = None.
Proof. reflexivity. Qed.

(** [middleware(__dirname).should.be.type('function')] *)
Example middleware_accepts_a_string :
  is_Some
    (middleware toy_render toy_pathname toy_join toy_dirname
       (SrcString "/srv/sass")).
Proof. by eexists. Qed.

(** ** The further properties, on the in-memory site *)

Local Abbreviation sass_site opts force debug :=
  (sass toy_render toy_pathname toy_join toy_dirname opts force debug
     "/srv/sass" "/srv/css" None).

(** X1 on the site: a POST for [a.css] is handed on untouched. *)
Lemma middleware_ignores_other_requests_on_site :
  sass_site site_options false false (Request "POST" "/a.css") (Store ∅ site)
  = (Store ∅ site, [Next NextVoid]).
Proof.
  destruct (middleware_ignores_other_requests toy_render toy_pathname toy_join
              toy_dirname (Object site_options)
              (sass_site site_options false false)
              (Request "POST" "/a.css") (Store ∅ site)) as [Hignored _].
  - reflexivity.
  - apply Hignored. left. split; discriminate.
Defined.

(** X3 on the site: [/static/a.css] under the prefix [/static] is
    [/a.css]. *)
Lemma prefix_is_stripped_on_site :
  sass_site site_options_prefix false false
    (Request "GET" "/static/a.css") (Store ∅ site)
  = sass_site (without_prefix site_options_prefix) false false
      (Request "GET" "/a.css") (Store ∅ site).
Proof.
  destruct (prefix_is_stripped toy_render toy_pathname toy_join toy_dirname
              site_options_prefix false false "/srv/sass" "/srv/css" None
              "GET" "/static/a.css" "/a.css" "/static" (Store ∅ site))
    as [Hstrip _].
  - reflexivity.
  - discriminate.
  - apply Hstrip; reflexivity.
Defined.

(** X4 on the site: in response mode [a.css] is compiled although it is up
    to date, without a stat and without a write. *)
Lemma forced_middleware_never_stats_on_site :
  none_of is_stat
    (sass_site site_options_response true false get_a_css
       (Store a_known site)).2
  ∧ none_of is_write
      (sass_site site_options_response true false get_a_css
         (Store a_known site)).2
  ∧ world
      (sass_site site_options_response true false get_a_css
         (Store a_known site)).1
    = site.
Proof.
  destruct (forced_middleware_never_stats toy_render toy_pathname toy_join
              toy_dirname site_options_response
              (sass_site site_options_response true false)
              get_a_css (Store a_known site)) as [Hstat Hdisk].
  - reflexivity.
  - reflexivity.
  - split; [exact Hstat|]. apply Hdisk. reflexivity.
Defined.

(** X5 on the site: [a.scss] is gone; the forced compile falls through
    and the entry stays. *)
Lemma compile_unreadable_source_is_handed_on_on_site :
  (compile_a site_options false (Store a_known site_without_source)).1
  = Store a_known site_without_source
  ∧ omap next_of
      (compile_a site_options false (Store a_known site_without_source)).2
    = [NextNull].
Proof.
  destruct (compile_unreadable_source_is_handed_on toy_render toy_dirname
              site_options false a_scss a_css "/srv/sass"
              (Store a_known site_without_source) (FsError "ENOENT"))
    as (Hstore & Hnext & _).
  - reflexivity.
  - split; [exact Hstore|exact Hnext].
Defined.

(** X6 on the site. *)
Lemma resolve_source_stat_failure_is_handed_on_on_site :
  resolve_a site_options false false (Store a_known site_without_source)
  = (Store a_known site_without_source, [FsStat a_scss; Next NextNull]).
Proof.
  apply (resolve_source_stat_failure_is_handed_on toy_render toy_dirname
           site_options false false a_scss a_css "/srv/sass"
           (Store a_known site_without_source) [b_scss] (FsError "ENOENT"));
    reflexivity.
Defined.

(** X7 on the site: a missing output is compiled, a locked one is not. *)
Lemma resolve_output_stat_failure_on_site :
  recompiles a_scss
    (resolve_a site_options false false (Store a_known site_readonly)).2
  ∧ resolve_a site_options false false (Store a_known site_locked_output)
    = (Store a_known site_locked_output,
       [FsStat a_scss; FsStat a_css; Next (NextErr (FsError "EACCES"))]).
Proof.
  split.
  - apply (resolve_output_stat_failure toy_render toy_dirname site_options
             false false a_scss a_css "/srv/sass"
             (Store a_known site_readonly) [b_scss] (Stats 10)
             (FsError "ENOENT")); reflexivity.
  - apply (resolve_output_stat_failure toy_render toy_dirname site_options
             false false a_scss a_css "/srv/sass"
             (Store a_known site_locked_output) [b_scss] (Stats 10)
             (FsError "EACCES")); try reflexivity.
    discriminate.
Defined.

(** X9 on the site: compiling [a.scss] leaves the entry of another source
    alone. *)
Lemma resolve_keeps_other_entries_on_site :
  imports
    (resolve_a site_options true false
       (Store (<[old_scss := [b_scss]]> a_known) site)).1 !! old_scss
  = Some [b_scss].
Proof.
  rewrite (resolve_keeps_other_entries toy_render toy_dirname site_options
             true false a_scss a_css "/srv/sass"
             (Store (<[old_scss := [b_scss]]> a_known) site) old_scss).
  - reflexivity.
  - discriminate.
Defined.

(** ** The amended claims, on the in-memory site *)

Local Abbreviation in_order := (λ l : list string, l).
Local Abbreviation site_life :=
  (interleaving toy_render toy_pathname toy_join toy_dirname site).
Local Abbreviation get_a :=
  (Arrives (Object site_options) get_a_css in_order).

(** C5 as stated fails: [a.scss] is known and gone; [compile()] is
    entered, the read fails, and the entry is still there. *)
Lemma unread_source_keeps_entry :
  recompiles a_scss
    (compile_a site_options false (Store a_known site_without_source)).2
  ∧ none_of is_render
      (compile_a site_options false (Store a_known site_without_source)).2
  ∧ imports
      (compile_a site_options false (Store a_known site_without_source)).1
    !! a_scss
    = Some [b_scss].
Proof.
  split; [|split].
  - apply list_elem_of_In. vm_compute. left. reflexivity.
  - vm_compute. reflexivity.
  - vm_compute. reflexivity.
Qed.

(** C5 as amended, on the site: the ledger knew [_old.scss] and
    [_b.scss].  The callback of the read leaves no entry; the callback of
    the compiler writes [_b.scss] alone; and touching [_old.scss]
    afterwards changes nothing. *)
Lemma compile_deletes_then_replaces_on_site :
  (∃ reading rendering,
     compile_later toy_render toy_dirname site_options false a_scss a_css
       "/srv/sass" (Store {[a_scss := [old_scss; b_scss]]} site)
     = Suspended (Store {[a_scss := [old_scss; b_scss]]} site)
         [FsReadFile a_scss] reading
     ∧ resume reading (Store {[a_scss := [old_scss; b_scss]]} site)
       = Suspended (Store (delete a_scss {[a_scss := [old_scss; b_scss]]}) site)
           [] rendering
     ∧ imports
         (out_store
            (resume rendering
               (Store (delete a_scss {[a_scss := [old_scss; b_scss]]}) site)))
       !! a_scss
       = Some [b_scss])
  ∧ imports
      (compile_a site_options false
         (Store {[a_scss := [old_scss; b_scss]]} site)).1 !! a_scss
    = Some [b_scss]
  ∧ (recompiles a_scss
       (resolve_a site_options false false
          (Store
             (imports
                (compile_a site_options false
                   (Store {[a_scss := [old_scss; b_scss]]} site)).1)
             site)).2
     ↔ recompiles a_scss
         (resolve_a site_options false false
            (Store
               (imports
                  (compile_a site_options false
                     (Store {[a_scss := [old_scss; b_scss]]} site)).1)
               site_touched)).2).
Proof.
  destruct (compile_deletes_then_replaces toy_render toy_dirname site_options
              false false a_scss a_css "/srv/sass"
              (Store {[a_scss := [old_scss; b_scss]]} site) a_text)
    as ((reading & Hcall & _ & Hread) & Hok); [reflexivity|].
  destruct (Hread (Store {[a_scss := [old_scss; b_scss]]} site) a_text)
    as (rendering & Hstep & _ & Hdone); [reflexivity|].
  destruct (Hdone (Store (delete a_scss {[a_scss := [old_scss; b_scss]]})
                     site)) as (rest & _ & _ & Hset).
  destruct (Hok a_result) as (_ & Hentry & Hdrop); [reflexivity|].
  split; [|split; [exact Hentry|]].
  - exists reading, rendering. split; [exact Hcall|]. split; [exact Hstep|].
    rewrite (Hset a_result) by reflexivity. apply lookup_insert_eq.
  - destruct (Hdrop old_scss site site_touched) as (_ & _ & Hsame).
    + intros Hin. apply list_elem_of_singleton in Hin. discriminate Hin.
    + apply touched_agrees_elsewhere.
    + apply Hsame; discriminate.
Defined.

(** C7 as stated fails.  The compiler's message is copied as it is: one
    that holds [*/] closes the comment, and what follows is read as CSS,
    here a rule that hides the page; one that quotes the source, as those
    of the compiler do, closes the string of the rule. *)
Lemma diagnostic_is_not_inert :
  (compile (λ _ _, inl (SassError "*/ body { display: none } /*" 3 7))
     toy_dirname site_options false a_scss a_css "/srv/sass"
     (Store ∅ site)).2
  = [FsReadFile a_scss;
     Render a_scss (a_render_options a_text)
       (inl (SassError "*/ body { display: none } /*" 3 7));
     WriteHead 200 css_headers;
     ResEnd
       (error_data a_scss (SassError "*/ body { display: none } /*" 3 7))]
  ∧ after_comment
      (error_data a_scss (SassError "*/ body { display: none } /*" 3 7))
    = Some (" body { display: none } /* in /srv/sass/a.scss:3:7" +:+ LF
            +:+ "*/" +:+ LF +:+ diagnostic_rule +:+ DQUOTE
            +:+ "*/ body { display: none } /* in /srv/sass/a.scss:3:7"
            +:+ DQUOTE)
  ∧ ¬ inert_diagnostic
        (error_message a_scss (SassError "*/ body { display: none } /*" 3 7))
        (error_data a_scss (SassError "*/ body { display: none } /*" 3 7))
  ∧ ¬ inert_diagnostic
        (error_message a_scss
           (SassError ("expected " +:+ DQUOTE +:+ "}" +:+ DQUOTE) 3 7))
        (error_data a_scss
           (SassError ("expected " +:+ DQUOTE +:+ "}" +:+ DQUOTE) 3 7)).
Proof.
  split; [vm_compute; reflexivity|]. split; [vm_compute; reflexivity|].
  split.
  - intros [Hcomment _]. vm_compute in Hcomment. discriminate Hcomment.
  - intros (_ & quoted & Hrule & Hplain).
    assert (Hq : quoted
                 = "expected " +:+ DQUOTE +:+ "}" +:+ DQUOTE
                   +:+ " in /srv/sass/a.scss:3:7").
    { symmetry. apply (append_cancel_r _ _ DQUOTE).
      assert (Hpre : ∀ x y,
        Some (LF +:+ diagnostic_rule +:+ DQUOTE +:+ x)
        = Some (LF +:+ diagnostic_rule +:+ DQUOTE +:+ y) → x = y).
      { intros x y Heq. vm_compute in Heq. by simplify_eq. }
      apply Hpre. rewrite <- Hrule. vm_compute. reflexivity. }
    subst quoted. vm_compute in Hplain. discriminate Hplain.
Qed.

(** C7 as amended, on the site. *)
Lemma compile_error_is_answered_with_diagnostic_on_site :
  (∃ pre,
     (compile_a site_options false (Store a_known site_broken)).2
     = pre ++ [WriteHead 200 css_headers; ResEnd (error_data a_scss a_error)]
     ∧ none_of is_response pre)
  ∧ none_of is_next
      (compile_a site_options false (Store a_known site_broken)).2
  ∧ substring_of "unexpected !" (error_data a_scss a_error)
  ∧ substring_of "/srv/sass/a.scss:3:7" (error_data a_scss a_error)
  ∧ inert_diagnostic "unexpected ! in /srv/sass/a.scss:3:7"
      (error_data a_scss a_error).
Proof.
  destruct (compile_error_is_answered_with_diagnostic toy_render toy_dirname
              site_options false a_scss a_css "/srv/sass"
              (Store a_known site_broken) a_text_broken a_error)
    as (Hresp & Hnext & _ & Hmsg & Hloc & Hinert).
  - reflexivity.
  - reflexivity.
  - split; [exact Hresp|]. split; [exact Hnext|].
    split; [exact Hmsg|]. split; [exact Hloc|].
    apply Hinert; vm_compute; reflexivity.
Defined.

(** C8 as stated fails: [a.scss] is compiled, then edited badly and
    requested again; it has been compiled successfully once, every
    callback has run, and it has no entry. *)
Lemma entry_lost_after_failed_compile :
  compiled_once a_scss
    (p_trace
       (site_life
          [get_a; Completes 0; Completes 0; Completes 0; Completes 0;
           DiskChanges site_broken;
           get_a; Completes 0; Completes 0; Completes 0; Completes 0]))
  ∧ p_pending
      (site_life
         [get_a; Completes 0; Completes 0; Completes 0; Completes 0;
          DiskChanges site_broken;
          get_a; Completes 0; Completes 0; Completes 0; Completes 0])
    = []
  ∧ imports
      (p_store
         (site_life
            [get_a; Completes 0; Completes 0; Completes 0; Completes 0;
             DiskChanges site_broken;
             get_a; Completes 0; Completes 0; Completes 0; Completes 0]))
    !! a_scss
    = None.
Proof.
  split; [|split; vm_compute; reflexivity].
  exists (a_render_options a_text), a_result.
  apply list_elem_of_In.
  vm_compute. right. left. reflexivity.
Qed.


(** The same two requests: the last invocation of the compiler for
    [a.scss] has failed, and the entry is there. *)
Example overlapping_requests_keep_the_entry :
  omap render_of
    (p_trace
       (site_life
          [get_a; Completes 0; DiskChanges site_broken; get_a; Completes 1;
           Completes 0; Completes 0]))
  = [(a_scss, a_render_options a_text, inr a_result);
     (a_scss, a_render_options a_text_broken, inl a_error)]
  ∧ is_Some
      (imports
         (p_store
            (site_life
               [get_a; Completes 0; DiskChanges site_broken; get_a;
                Completes 1; Completes 0; Completes 0]))
       !! a_scss).
Proof. split; [vm_compute; reflexivity|]. eexists. vm_compute. reflexivity. Qed.

(** A request for a stylesheet without source moves to the next
    middleware. *)
Example missing_source_falls_through :
  p_trace
    (site_life
       [Arrives (Object site_options) (Request "GET" "/does-not-exist.css")
          in_order;
        Completes 0])
  = [FsReadFile "/srv/sass/does-not-exist.scss"; Next NextNull].
Proof. vm_compute. reflexivity. Qed.

(** A change in a dependent file forces a new compile: the first request
    compiles, the second finds nothing changed, and after [_b.scss] has been
    touched the third compiles again. *)
Example touched_import_recompiles :
  p_trace
    (site_life
       [get_a; Completes 0; Completes 0; Completes 0; Completes 0;
        get_a; Completes 0; Completes 0; Completes 0;
        DiskChanges
          (MkDisk (<[b_scss := File 60 "b b"]> (files (persist_world
             toy_dirname a_css site a_text))) 70);
        get_a; Completes 0; Completes 0; Completes 0; Completes 0;
        Completes 0; Completes 0; Completes 0])
  = [FsReadFile a_scss;
     Render a_scss (a_render_options a_text) (inr a_result);
     Mkdirp "/srv/css" 448; WriteHead 200 css_headers; ResEnd a_text;
     FsWriteFile a_css a_text;
     FsStat a_scss; FsStat a_css; FsStat b_scss; Next NextVoid;
     FsStat a_scss; FsStat a_css; FsStat b_scss; FsReadFile a_scss;
     Render a_scss (a_render_options a_text) (inr a_result);
     Mkdirp "/srv/css" 448; WriteHead 200 css_headers; ResEnd a_text;
     FsWriteFile a_css a_text].
Proof. vm_compute. reflexivity. Qed.

(** X8 on the site: two files are recorded and both count as changed;
    the stat of [_b.scss] completes first, and [fn], here the callback
    of [resolve] with its debug lines, gets [_b.scss] first. *)
Lemma checkImports_calls_back_after_last_stat_on_site :
  ∃ t,
    checkImports_later (@rev string) a_scss 0
      (imports_checked_later toy_render toy_dirname site_options true a_scss
         a_css "/srv/sass")
      (Store {[a_scss := [old_scss; b_scss]]} site)
    = Suspended (Store {[a_scss := [old_scss; b_scss]]} site)
        [FsStat old_scss; FsStat b_scss] t
    ∧ then_calls
        [Store {[a_scss := [old_scss; b_scss]]} site;
         Store {[a_scss := [old_scss; b_scss]]} site_touched]
        t
        (λ s' o,
           o = imports_checked_later toy_render toy_dirname site_options true
                 a_scss a_css "/srv/sass" (Some [b_scss; old_scss]) s').
Proof.
  destruct (checkImports_calls_back_after_last_stat (@rev string) a_scss 0
              (imports_checked_later toy_render toy_dirname site_options true
                 a_scss a_css "/srv/sass")
              (Store {[a_scss := [old_scss; b_scss]]} site)) as [_ Hsome].
  destruct (Hsome [old_scss; b_scss]) as (t & Hcall & Hcalls & _);
    [reflexivity|done|reflexivity|].
  exists t. split; [exact Hcall|].
  exact (Hcalls [Store {[a_scss := [old_scss; b_scss]]} site;
                 Store {[a_scss := [old_scss; b_scss]]} site_touched]
           eq_refl).
Defined.
